(** * Aggregation pipeline of the e-commerce dashboard

    A shallow embedding of [prepare_dashboard_data] (scripts/dashboard.py)
    and of the table operations it is written with: [merge], [groupby],
    [agg], [sort_values], [head], column projection.

    Conventions of the embedding.
    - A data frame is the list of its rows, in row order; a row is a record
      with one field per column the pipeline reads.
    - Identifier and label columns hold no missing value in the cleaned
      frames.  The columns whose missing values the code looks at are
      nullable here: [won_date], [business_segment] of the closed deals
      (and both after the left merge), [order_purchase_timestamp],
      [delivery_delay].
    - Monetary amounts are exact integers (minor units); ratios are exact
      rationals, with the two special values a pandas division can give.
      Rounding of binary floating point is outside the model: a sum is
      exact here, so what is proved of a total holds of the code up to the
      rounding of a float64 sum, and nothing is concluded from adding the
      rows of a group in another order. *)

From Stdlib Require Import List ZArith QArith Bool String Ascii Lia.
From Stdlib Require Import Permutation Sorted OrderedTypeEx.
Import ListNotations.

Local Open Scope string_scope.
Local Open Scope list_scope.
Local Open Scope Z_scope.

(** ** Ordered column types

    [groupby] sorts the group keys; a key column needs a total order. *)

Class KeyOrd (K : Type) := {
  kcmp : K -> K -> comparison;
  kcmp_eq : forall a b, kcmp a b = Eq <-> a = b;
  kcmp_antisym : forall a b, kcmp a b = CompOpp (kcmp b a);
  kcmp_trans : forall a b c, kcmp a b = Lt -> kcmp b c = Lt -> kcmp a c = Lt
}.

Definition keqb {K} `{KeyOrd K} (a b : K) : bool :=
  match kcmp a b with Eq => true | _ => false end.

Definition klt {K} `{KeyOrd K} (a b : K) : Prop := kcmp a b = Lt.

#[export, refine] Instance KeyOrd_Z : KeyOrd Z := {| kcmp := Z.compare |}.
Proof.
  - intros a b. apply Z.compare_eq_iff.
  - intros a b. apply Z.compare_antisym.
  - intros a b c Hab Hbc. rewrite Z.compare_lt_iff in *. lia.
Defined.

#[export, refine] Instance KeyOrd_string : KeyOrd string :=
  {| kcmp := String.compare |}.
Proof.
  - intros a b. apply String_as_OT.cmp_eq.
  - intros a b. apply String.compare_antisym.
  - intros a b c Hab Hbc.
    apply String_as_OT.cmp_lt in Hab. apply String_as_OT.cmp_lt in Hbc.
    apply String_as_OT.cmp_lt. eapply String_as_OT.lt_trans; eassumption.
Defined.

(** ** Table operations *)

Section Frames.

Context {K : Type} `{KO : KeyOrd K}.

(** The distinct values of a key column, ascending: the group index that
    [groupby(..., sort=True)] builds. *)
Fixpoint insert_key (k : K) (ks : list K) : list K :=
  match ks with
  | [] => [k]
  | h :: t =>
      match kcmp k h with
      | Lt => k :: h :: t
      | Eq => h :: t
      | Gt => h :: insert_key k t
      end
  end.

Definition group_keys (ks : list K) : list K :=
  fold_right insert_key [] ks.

Context {R : Type}.

(** Values of a nullable key column, missing ones dropped. *)
Definition dropna (key : R -> option K) (rows : list R) : list K :=
  flat_map (fun r => match key r with Some k => [k] | None => [] end) rows.

(** The row has a key (the key column is not missing). *)
Definition keyed (key : R -> option K) (r : R) : bool :=
  match key r with Some _ => true | None => false end.

Definition in_group (key : R -> option K) (k : K) (r : R) : bool :=
  match key r with Some k' => keqb k' k | None => false end.

(** [df.groupby(key)]: one group per distinct non-missing key, keys
    ascending, each group holding its rows in frame order.  Rows whose key
    is missing belong to no group (dropna=True). *)
Definition groupby (key : R -> option K) (rows : list R) : list (K * list R) :=
  map (fun k => (k, filter (in_group key k) rows))
      (group_keys (dropna key rows)).

End Frames.

Section Merge.

Context {L R J : Type}.
Variable eqb : J -> J -> bool.
Variables (kl : L -> J) (kr : R -> J).

Definition matches (l : L) (right : list R) : list R :=
  filter (fun r => eqb (kl l) (kr r)) right.

(** [left.merge(right, on=key)] (how='inner'): every pair of rows with
    equal keys, in the order of the left frame. *)
Definition merge_inner (left : list L) (right : list R) : list (L * R) :=
  flat_map (fun l => map (pair l) (matches l right)) left.

(** [left.merge(right, on=key, how='left')]: as above, and a left row
    without partner is kept once, its right columns missing. *)
Definition merge_left (left : list L) (right : list R) : list (L * option R) :=
  flat_map (fun l =>
              match matches l right with
              | [] => [(l, None)]
              | ms => map (fun r => (l, Some r)) ms
              end) left.

End Merge.

(** Column sum of an integer column, and [count] of a column without
    missing values. *)
Definition col_sum {R} (f : R -> Z) (rows : list R) : Z :=
  fold_right Z.add 0 (map f rows).

Definition count {R} (rows : list R) : Z := Z.of_nat (List.length rows).

(** [x.notna().sum()] on a nullable column. *)
Definition count_notna {R A} (f : R -> option A) (rows : list R) : Z :=
  Z.of_nat (List.length (filter (fun r => match f r with Some _ => true | None => false end) rows)).

(** [df.head(n)] *)
Definition head {R} (n : nat) (rows : list R) : list R := firstn n rows.

(** ** [sort_values(col, ascending=False)]

    The default sort kind is not stable, so which of two rows with equal
    values comes first is left to the sorting routine.  A [Sorter] is any
    routine that returns the rows rearranged in descending order of the
    column. *)
Record Sorter : Type := {
  sort_desc : forall R : Type, (R -> Z) -> list R -> list R;
  sort_desc_perm : forall R (f : R -> Z) l, Permutation l (sort_desc R f l);
  sort_desc_sorted : forall R (f : R -> Z) l,
      StronglySorted (fun a b => f b <= f a) (sort_desc R f l)
}.

Arguments sort_desc s {R} f l.

(** One such routine: the stable one (rows with equal values keep their
    frame order). *)
Fixpoint insert_desc {R} (f : R -> Z) (x : R) (l : list R) : list R :=
  match l with
  | [] => [x]
  | y :: t => if f x <? f y then y :: insert_desc f x t else x :: y :: t
  end.

Definition stable_sort_desc (R : Type) (f : R -> Z) (l : list R) : list R :=
  fold_right (insert_desc f) [] l.

(** ** Values of a float column

    An exact rational, or one of the special values of a float division:
    x/0 is infinite for x <> 0 and 0/0 is NaN. *)
Inductive pdfloat : Type :=
| Fin (q : Q)
| PosInf
| NegInf
| NaN.

(** Series division of two integer columns, element by element. *)
Definition pd_truediv (a b : Z) : pdfloat :=
  if b =? 0 then
    if a =? 0 then NaN else if 0 <? a then PosInf else NegInf
  else Fin (Qdiv (inject_Z a) (inject_Z b)).

(** Series times a positive scalar. *)
Definition pd_scale (x : pdfloat) (c : Q) : pdfloat :=
  match x with
  | Fin q => Fin (Qmult q c)
  | other => other
  end.

Definition fillna (d : Q) (x : pdfloat) : pdfloat :=
  match x with
  | NaN => Fin d
  | other => other
  end.

(** [mean] of an integer column: NaN on an empty one. *)
Definition mean (xs : list Z) : pdfloat :=
  match xs with
  | [] => NaN
  | _ => Fin (Qdiv (inject_Z (fold_right Z.add 0 xs))
                   (inject_Z (Z.of_nat (List.length xs))))
  end.

(** [Series.clip(lo, hi)], used by the delivery tab on the delay column. *)
Definition clip (lo hi x : Z) : Z := Z.min hi (Z.max lo x).

(** ** Timestamps and monthly periods *)

Record Timestamp : Type := {
  year : Z;
  month : Z;         (* 1..12 *)
  day : Z;
  time_of_day : Z    (* nanoseconds since midnight *)
}.

(** [dt.to_period('M')]: a monthly period is the number of months since
    January 1970. *)
Definition to_period_M (t : Timestamp) : Z := (year t - 1970) * 12 + (month t - 1).

Definition digit (n : Z) : ascii := ascii_of_nat (48 + Z.to_nat (n mod 10)).

(** [str] of a monthly period, "YYYY-MM" (years 0000..9999; a pandas
    timestamp lies between 1677 and 2262). *)
Definition period_str (p : Z) : string :=
  let y := 1970 + p / 12 in
  let m := p mod 12 + 1 in
  String (digit (y / 1000)) (String (digit (y / 100)) (String (digit (y / 10))
    (String (digit y) (String "-"%char (String (digit (m / 10))
      (String (digit m) EmptyString)))))).

(** ** Input tables *)

Module OrderItem.
Record t : Type := {
  order_id : Z;
  product_id : string;
  seller_id : string;
  price : Z
}.
End OrderItem.

Module Order.
Record t : Type := {
  order_id : Z;
  customer_id : string;
  order_purchase_timestamp : option Timestamp;
  delivery_delay : option Z;
  delay_status : string
}.
End Order.

Module Customer.
Record t : Type := {
  customer_id : string;
  customer_state : string
}.
End Customer.

Module Product.
Record t : Type := {
  product_id : string;
  product_category_name : string
}.
End Product.

Module Translation.
Record t : Type := {
  product_category_name : string;
  product_category_name_english : string
}.
End Translation.

Module OrderReview.
Record t : Type := {
  order_id : Z;
  review_score : Z
}.
End OrderReview.

Module ClosedLead.
Record t : Type := {
  mql_id : Z;
  business_segment : option string;
  won_date : option Timestamp
}.
End ClosedLead.

(** The frame of qualified leads.  The pipeline asks it for [mql_id] only;
    whether it also carries a [business_segment] column decides what the
    merge with the closed deals calls its columns, so the two shapes are
    kept apart. *)
Inductive QualifiedLeads : Type :=
| QLeads (mql_ids : list Z)
| QLeadsWithSegment (rows : list (Z * string)).

Definition qualified_len (q : QualifiedLeads) : Z :=
  match q with
  | QLeads ids => count ids
  | QLeadsWithSegment rows => count rows
  end.

(** The module-level names [prepare_dashboard_data] reads. *)
Record Globals : Type := {
  order_items_clean : list OrderItem.t;
  products_clean : list Product.t;
  product_cat_name_clean : list Translation.t;
  orders_clean : list Order.t;
  customers_clean : list Customer.t;
  order_reviews_clean : list OrderReview.t;
  qualified_leads_clean : QualifiedLeads;
  closed_leads_clean : list ClosedLead.t
}.

(** ** Reports *)

(** A row of any of the three revenue frames; [label] is the group column
    ([product_category_name_english], [customer_state] or [seller_id]). *)
Record RevenueRow : Type := {
  label : string;
  total_revenue : Z;
  order_count : Z
}.

Record DeliveryRow : Type := {
  dm_delivery_delay : option Z;
  dm_delay_status : string
}.

Record SatisfactionRow : Type := {
  order_month : string;
  mean_score : pdfloat;      (* column 'mean' *)
  review_count : Z           (* column 'count' *)
}.

Module LeadMetrics.
Record t : Type := {
  total_qualified_leads : Z;
  total_closed_leads : Z;
  conversion_rate : Q
}.
End LeadMetrics.

Module SegmentRow.
Record t : Type := {
  business_segment : string;
  total_leads : Z;
  converted_leads : Z;
  conversion_rate : pdfloat
}.
End SegmentRow.

(** The mapping [prepare_dashboard_data] returns. *)
Module Dashboard.
Record t : Type := {
  revenue_by_category : list RevenueRow;
  revenue_by_region : list RevenueRow;
  revenue_by_seller : list RevenueRow;
  delivery_metrics : list DeliveryRow;
  satisfaction_over_time : list SatisfactionRow;
  lead_metrics : LeadMetrics.t;
  lead_conversion_by_segment : list SegmentRow.t
}.
End Dashboard.

(** Outcome of a Python call that may raise. *)
Inductive pyresult (A : Type) : Type :=
| Ok (a : A)
| KeyError (column : string)
| TypeError.

Arguments Ok {A} a.
Arguments KeyError {A} column.
Arguments TypeError {A}.

(** ** The pipeline *)

(** [.agg(total_revenue=('price', 'sum'), order_count=('order_id', 'count'))
    .reset_index()] on a grouped frame. *)
Definition agg_revenue {R} (price : R -> Z) (groups : list (string * list R))
  : list RevenueRow :=
  map (fun kg => {| label := fst kg;
                    total_revenue := col_sum price (snd kg);
                    order_count := count (snd kg) |}) groups.

(** Order items with their product and its translated category:
    the two inner merges of report 1. *)
Definition items_with_category (items : list OrderItem.t)
    (products : list Product.t) (translation : list Translation.t)
  : list (OrderItem.t * Product.t * Translation.t) :=
  merge_inner String.eqb
    (fun ip => Product.product_category_name (snd ip))
    Translation.product_category_name
    (merge_inner String.eqb OrderItem.product_id Product.product_id items products)
    translation.

(** [order_items_clean[['order_id', 'price']]] *)
Definition order_price (items : list OrderItem.t) : list (Z * Z) :=
  map (fun i => (OrderItem.order_id i, OrderItem.price i)) items.

(** [orders_clean[['order_id', 'customer_id']]] *)
Definition order_customer (orders : list Order.t) : list (Z * string) :=
  map (fun o => (Order.order_id o, Order.customer_id o)) orders.

(** Order items with the state of the customer of their order: the two
    inner merges of report 2. *)
Definition items_with_state (items : list OrderItem.t) (orders : list Order.t)
    (customers : list Customer.t) : list (Z * Z * (Z * string) * Customer.t) :=
  merge_inner String.eqb (fun io => snd (snd io)) Customer.customer_id
    (merge_inner Z.eqb fst fst (order_price items) (order_customer orders))
    customers.

(** [orders_clean[['order_id', 'order_purchase_timestamp']]] *)
Definition order_timestamp (orders : list Order.t) : list (Z * option Timestamp) :=
  map (fun o => (Order.order_id o, Order.order_purchase_timestamp o)) orders.

(** Reviews with the purchase timestamp of their order. *)
Definition satisfaction_data (reviews : list OrderReview.t) (orders : list Order.t)
  : list (OrderReview.t * (Z * option Timestamp)) :=
  merge_inner Z.eqb OrderReview.order_id fst reviews (order_timestamp orders).

(** Column [order_month] added to [satisfaction_data]. *)
Definition order_month_of (r : OrderReview.t * (Z * option Timestamp)) : option Z :=
  option_map to_period_M (snd (snd r)).

(** [groupby('order_month')['review_score'].agg(['mean', 'count'])
    .reset_index()], the month still a period. *)
Definition satisfaction_by_period (reviews : list OrderReview.t)
    (orders : list Order.t) : list (Z * pdfloat * Z) :=
  map (fun kg => (fst kg,
                  mean (map (fun r => OrderReview.review_score (fst r)) (snd kg)),
                  count (snd kg)))
      (groupby order_month_of (satisfaction_data reviews orders)).

(** Report 5, the month turned into its string. *)
Definition satisfaction_over_time (reviews : list OrderReview.t)
    (orders : list Order.t) : list SatisfactionRow :=
  map (fun r => {| order_month := period_str (fst (fst r));
                   mean_score := snd (fst r);
                   review_count := snd r |})
      (satisfaction_by_period reviews orders).

(** Report 4: [orders_clean[['delivery_delay', 'delay_status']].copy()] *)
Definition delivery_metrics (orders : list Order.t) : list DeliveryRow :=
  map (fun o => {| dm_delivery_delay := Order.delivery_delay o;
                   dm_delay_status := Order.delay_status o |}) orders.

(** The delay column as the delivery tab draws it. *)
Definition delay_data (dm : list DeliveryRow) : list (option Z) :=
  map (fun r => option_map (clip (-30) 30) (dm_delivery_delay r)) dm.

(** Report 6 *)
Definition lead_metrics (qualified : QualifiedLeads) (closed : list ClosedLead.t)
  : LeadMetrics.t :=
  {| LeadMetrics.total_qualified_leads := qualified_len qualified;
     LeadMetrics.total_closed_leads := count closed;
     LeadMetrics.conversion_rate :=
       if 0 <? qualified_len qualified
       then Qmult (Qdiv (inject_Z (count closed)) (inject_Z (qualified_len qualified)))
                  (inject_Z 100)
       else inject_Z 0 |}.

(** Qualified leads left-merged with
    [closed_leads_clean[['mql_id', 'business_segment', 'won_date']]]. *)
Definition leads_joined (mql_ids : list Z) (closed : list ClosedLead.t)
  : list (Z * option ClosedLead.t) :=
  merge_left Z.eqb (fun m => m) ClosedLead.mql_id mql_ids closed.

Definition joined_segment (r : Z * option ClosedLead.t) : option string :=
  match snd r with
  | Some c => ClosedLead.business_segment c
  | None => None
  end.

Definition joined_won_date (r : Z * option ClosedLead.t) : option Timestamp :=
  match snd r with
  | Some c => ClosedLead.won_date c
  | None => None
  end.

(** [converted_leads / total_leads * 100] followed by [fillna(0)]. *)
Definition segment_rate (converted total : Z) : pdfloat :=
  fillna (inject_Z 0) (pd_scale (pd_truediv converted total) (inject_Z 100)).

(** The aggregation of report 7 and its rate column, group by group. *)
Definition segment_rows (groups : list (string * list (Z * option ClosedLead.t)))
  : list SegmentRow.t :=
  map (fun kg =>
         let total := count (snd kg) in
         let converted := count_notna joined_won_date (snd kg) in
         {| SegmentRow.business_segment := fst kg;
            SegmentRow.total_leads := total;
            SegmentRow.converted_leads := converted;
            SegmentRow.conversion_rate := segment_rate converted total |})
      groups.

(** Report 7.  When the qualified leads carry a [business_segment] column
    of their own, the merge names the two columns [business_segment_x] and
    [business_segment_y], and [groupby('business_segment')] raises.
    When the merged frame has no group at all, the aggregating function is
    never called, the [converted_leads] column keeps the datetime type of
    [won_date], and dividing it by [total_leads] raises. *)
Definition lead_conversion_by_segment (qualified : QualifiedLeads)
    (closed : list ClosedLead.t) : pyresult (list SegmentRow.t) :=
  match qualified with
  | QLeadsWithSegment _ => KeyError "business_segment"
  | QLeads mql_ids =>
      match groupby joined_segment (leads_joined mql_ids closed) with
      | [] => TypeError
      | groups => Ok (segment_rows groups)
      end
  end.

Section Pipeline.

Variable s : Sorter.

(** Report 1 *)
Definition revenue_by_category (items : list OrderItem.t)
    (products : list Product.t) (translation : list Translation.t)
  : list RevenueRow :=
  sort_desc s total_revenue
    (agg_revenue (fun r => OrderItem.price (fst (fst r)))
       (groupby (fun r => Some (Translation.product_category_name_english (snd r)))
          (items_with_category items products translation))).

(** Report 2 *)
Definition revenue_by_region (items : list OrderItem.t) (orders : list Order.t)
    (customers : list Customer.t) : list RevenueRow :=
  sort_desc s total_revenue
    (agg_revenue (fun r => snd (fst (fst r)))
       (groupby (fun r => Some (Customer.customer_state (snd r)))
          (items_with_state items orders customers))).

(** Seller totals before sorting. *)
Definition seller_totals (items : list OrderItem.t) : list RevenueRow :=
  agg_revenue OrderItem.price
    (groupby (fun i => Some (OrderItem.seller_id i)) items).

(** Report 3 *)
Definition revenue_by_seller (items : list OrderItem.t) : list RevenueRow :=
  head 20 (sort_desc s total_revenue (seller_totals items)).

Definition prepare_dashboard_data (g : Globals) : pyresult Dashboard.t :=
  let by_category :=
    revenue_by_category (order_items_clean g) (products_clean g)
                        (product_cat_name_clean g) in
  let by_region :=
    revenue_by_region (order_items_clean g) (orders_clean g) (customers_clean g) in
  let by_seller := revenue_by_seller (order_items_clean g) in
  let delivery := delivery_metrics (orders_clean g) in
  let satisfaction := satisfaction_over_time (order_reviews_clean g) (orders_clean g) in
  let leads := lead_metrics (qualified_leads_clean g) (closed_leads_clean g) in
  match lead_conversion_by_segment (qualified_leads_clean g) (closed_leads_clean g) with
  | KeyError c => KeyError c
  | TypeError => TypeError
  | Ok by_segment =>
      Ok {| Dashboard.revenue_by_category := by_category;
            Dashboard.revenue_by_region := by_region;
            Dashboard.revenue_by_seller := by_seller;
            Dashboard.delivery_metrics := delivery;
            Dashboard.satisfaction_over_time := satisfaction;
            Dashboard.lead_metrics := leads;
            Dashboard.lead_conversion_by_segment := by_segment |}
  end.

End Pipeline.

(** The stable routine is a [Sorter]. *)
Definition stable_sorter : Sorter.
Proof.
  refine {| sort_desc := stable_sort_desc |}.
  - intros R f l.
    assert (Hins : forall x t, Permutation (x :: t) (insert_desc f x t)).
    { intros x t. induction t as [|y t IH]; simpl.
      - apply Permutation_refl.
      - destruct (f x <? f y).
        + eapply perm_trans; [apply perm_swap|]. apply perm_skip, IH.
        + apply Permutation_refl. }
    induction l as [|x l IH]; simpl.
    + apply perm_nil.
    + eapply perm_trans; [apply perm_skip, IH|]. apply Hins.
  - intros R f l.
    assert (Hins : forall x t,
               StronglySorted (fun a b => f b <= f a) t ->
               StronglySorted (fun a b => f b <= f a) (insert_desc f x t)).
    { intros x t Ht. induction Ht as [|y t Ht IH Hy]; simpl.
      - constructor; constructor.
      - destruct (f x <? f y) eqn:E.
        + constructor; [exact IH|].
          assert (Hp : forall z u, Forall (fun b => f b <= f y) u ->
                                   f z <= f y ->
                                   Forall (fun b => f b <= f y) (insert_desc f z u)).
          { intros z u Hu Hz. induction Hu as [|w u Hw Hu IHu]; simpl.
            - constructor; [exact Hz|constructor].
            - destruct (f z <? f w); constructor; auto. }
          apply Hp; [exact Hy|]. apply Z.ltb_lt in E. lia.
        + apply Z.ltb_ge in E. constructor.
          * constructor; assumption.
          * constructor; [exact E|].
            eapply Forall_impl; [|exact Hy]. simpl. intros; lia. }
    induction l as [|x l IH]; simpl.
    + constructor.
    + apply Hins, IH.
Defined.

(** ** Notions the properties are stated with *)

Definition descending (rows : list RevenueRow) : Prop :=
  StronglySorted (fun a b => total_revenue b <= total_revenue a) rows.

(** The joined order items that fall into an English category name. *)
Definition category_rows (category : string) (items : list OrderItem.t)
    (products : list Product.t) (translation : list Translation.t)
  : list (OrderItem.t * Product.t * Translation.t) :=
  filter (fun r => String.eqb (Translation.product_category_name_english (snd r)) category)
         (items_with_category items products translation).

(** Number of distinct [order_id] values among joined order items: what
    [nunique] would give. *)
Definition distinct_order_count (rows : list (OrderItem.t * Product.t * Translation.t)) : Z :=
  count (nodup Z.eq_dec (map (fun r => OrderItem.order_id (fst (fst r))) rows)).

(** ** Sample frames *)

Definition item (o : Z) (p s : string) (pr : Z) : OrderItem.t :=
  {| OrderItem.order_id := o; OrderItem.product_id := p;
     OrderItem.seller_id := s; OrderItem.price := pr |}.

(** One order with two items of the same product. *)
Definition two_items_one_order : list OrderItem.t :=
  [item 1 "p" "A" 10; item 1 "p" "A" 20].

Definition one_product : list Product.t :=
  [{| Product.product_id := "p"; Product.product_category_name := "cama" |}].

Definition one_translation : list Translation.t :=
  [{| Translation.product_category_name := "cama";
      Translation.product_category_name_english := "bed" |}].

Definition sample_orders : list Order.t :=
  [{| Order.order_id := 1; Order.customer_id := "c1";
      Order.order_purchase_timestamp :=
        Some {| year := 2017; month := 3; day := 14; time_of_day := 0 |};
      Order.delivery_delay := Some 45; Order.delay_status := "Late" |};
   {| Order.order_id := 2; Order.customer_id := "c2";
      Order.order_purchase_timestamp :=
        Some {| year := 2017; month := 1; day := 2; time_of_day := 0 |};
      Order.delivery_delay := Some (-3); Order.delay_status := "Early" |}].

Definition sample_customers : list Customer.t :=
  [{| Customer.customer_id := "c1"; Customer.customer_state := "SP" |};
   {| Customer.customer_id := "c2"; Customer.customer_state := "RJ" |}].

Definition sample_reviews : list OrderReview.t :=
  [{| OrderReview.order_id := 1; OrderReview.review_score := 5 |};
   {| OrderReview.order_id := 2; OrderReview.review_score := 2 |};
   {| OrderReview.order_id := 1; OrderReview.review_score := 4 |};
   {| OrderReview.order_id := 7; OrderReview.review_score := 1 |}].

(** The closed deal of the lead example: lead 1 won in segment "X". *)
Definition one_closed_lead : list ClosedLead.t :=
  [{| ClosedLead.mql_id := 1; ClosedLead.business_segment := Some "X";
      ClosedLead.won_date :=
        Some {| year := 2020; month := 1; day := 1; time_of_day := 0 |} |}].

Definition sample_globals : Globals :=
  {| order_items_clean := two_items_one_order;
     products_clean := one_product;
     product_cat_name_clean := one_translation;
     orders_clean := sample_orders;
     customers_clean := sample_customers;
     order_reviews_clean := sample_reviews;
     qualified_leads_clean := QLeads [1; 2];
     closed_leads_clean := one_closed_lead |}.

(** Two closed deals, the second for a lead the qualified frame may lack. *)
Definition two_closed_leads : list ClosedLead.t :=
  one_closed_lead ++
  [{| ClosedLead.mql_id := 2; ClosedLead.business_segment := Some "Y";
      ClosedLead.won_date :=
        Some {| year := 2020; month := 2; day := 1; time_of_day := 0 |} |}].

(** The qualified leads of the lead example, with the segment column the
    example gives them. *)
Definition example_qualified_with_segment : QualifiedLeads :=
  QLeadsWithSegment [(1, "X"); (2, "X")].

(** A rate is a percentage. *)
Definition percentage (q : Q) : Prop := (0 <= q)%Q /\ (q <= 100)%Q.

(** The rows of a revenue report stay within a total and a row count, one
    by one and summed. *)
Definition bounded_revenue (rows : list RevenueRow) (total cnt : Z) : Prop :=
  col_sum total_revenue rows <= total /\
  col_sum order_count rows <= cnt /\
  Forall (fun row => 0 <= total_revenue row <= total /\
                     0 <= order_count row <= cnt) rows.

(** A product frame that lists product "p" twice. *)
Definition duplicated_product : list Product.t := one_product ++ one_product.

(** Column [mql_id] of the qualified leads. *)
Definition qualified_ids (q : QualifiedLeads) : list Z :=
  match q with
  | QLeads ids => ids
  | QLeadsWithSegment rows => map fst rows
  end.

(** Every key identifies one row of its table. *)
Definition unique_keys (g : Globals) : Prop :=
  NoDup (map Product.product_id (products_clean g)) /\
  NoDup (map Translation.product_category_name (product_cat_name_clean g)) /\
  NoDup (map Order.order_id (orders_clean g)) /\
  NoDup (map Customer.customer_id (customers_clean g)) /\
  NoDup (qualified_ids (qualified_leads_clean g)) /\
  NoDup (map ClosedLead.mql_id (closed_leads_clean g)).

Definition nonneg_prices (g : Globals) : Prop :=
  forall i, In i (order_items_clean g) -> 0 <= OrderItem.price i.

(** A merged lead row that found a closed deal. *)
Definition has_partner {L R} (p : L * option R) : bool :=
  match snd p with Some _ => true | None => false end.

(** A timestamp column holds dates between 1677 and 2262; these are the
    monthly periods it can give. *)
Definition period_min : Z := (1677 - 1970) * 12.
Definition period_max : Z := (2262 - 1970) * 12 + 11.

Definition valid_timestamp (t : Timestamp) : Prop :=
  1677 <= year t <= 2262 /\ 1 <= month t <= 12.

Definition label_ltb (a b : string) : bool :=
  match String.compare a b with Lt => true | _ => false end.

(** The labels of [n] consecutive periods from [p] on each come before the
    next one's. *)
Fixpoint labels_ascend_from (n : nat) (p : Z) : bool :=
  match n with
  | O => true
  | S n' => label_ltb (period_str p) (period_str (p + 1))
            && labels_ascend_from n' (p + 1)
  end.

(** ** Ties at the truncation of RevenueBySeller *)

(** Index of the first order item of a seller. *)
Fixpoint first_occurrence (seller : string) (items : list OrderItem.t) : option nat :=
  match items with
  | [] => None
  | i :: rest =>
      if String.eqb (OrderItem.seller_id i) seller then Some O
      else option_map S (first_occurrence seller rest)
  end.

Definition seller_total (seller : string) (items : list OrderItem.t) : Z :=
  col_sum OrderItem.price
          (filter (fun i => String.eqb (OrderItem.seller_id i) seller) items).

Definition retained (s : Sorter) (items : list OrderItem.t) (seller : string) : Prop :=
  In seller (map label (revenue_by_seller s items)).

(** "Ties are broken by input order": of two sellers with equal
    total_revenue, if the one that occurs later in OrderItem is in the
    report then so is the one that occurs earlier. *)
Definition ties_by_input_order (s : Sorter) (items : list OrderItem.t) : Prop :=
  forall a b ia ib,
    first_occurrence a items = Some ia ->
    first_occurrence b items = Some ib ->
    (ia < ib)%nat ->
    seller_total a items = seller_total b items ->
    retained s items b -> retained s items a.

(** The decidable part of the premise above. *)
Definition earlier_and_tied (items : list OrderItem.t) (a b : string) : bool :=
  match first_occurrence a items, first_occurrence b items with
  | Some ia, Some ib =>
      Nat.ltb ia ib && (seller_total a items =? seller_total b items)
  | _, _ => false
  end.

Definition sellers20 : list string :=
  ["s01"; "s02"; "s03"; "s04"; "s05"; "s06"; "s07"; "s08"; "s09"; "s10";
   "s11"; "s12"; "s13"; "s14"; "s15"; "s16"; "s17"; "s18"; "s19"; "s20"].

(** Twenty-one sellers with one item of price 10 each, seller "s21" last
    in the first frame and first in the second. *)
Definition tied_items_1 : list OrderItem.t :=
  map (fun seller => item 1 "p" seller 10) (sellers20 ++ ["s21"]).

Definition tied_items_2 : list OrderItem.t :=
  map (fun seller => item 1 "p" seller 10) ("s21" :: sellers20).

(** ** The cards and tabs that read the reports

    The layout and [render_tab_content] compute a few more figures from
    [dashboard_data] and from the cleaned frames; these are their
    expressions, without the number formatting. *)

(** Total Revenue card: [revenue_by_category['total_revenue'].sum()] and
    [revenue_by_category['order_count'].sum()], shown as "orders". *)
Definition kpi_total_revenue (by_category : list RevenueRow) : Z :=
  col_sum total_revenue by_category.

Definition kpi_orders (by_category : list RevenueRow) : Z :=
  col_sum order_count by_category.

(** [(delivery_metrics['delay_status'] == status).sum()] *)
Definition status_count (status : string) (dm : list DeliveryRow) : Z :=
  count (filter (fun r => String.eqb (dm_delay_status r) status) dm).

(** [(delivery_metrics['delay_status'] == status).mean() * 100]: the mean
    of a boolean column, NaN on an empty frame. *)
Definition status_share (status : string) (dm : list DeliveryRow) : pdfloat :=
  pd_scale (mean (map (fun r => if String.eqb (dm_delay_status r) status
                                then 1 else 0) dm))
           (inject_Z 100).

(** [delivery_metrics['delivery_delay'].mean()]: missing delays are
    skipped. *)
Definition mean_delay (dm : list DeliveryRow) : pdfloat :=
  mean (dropna dm_delivery_delay dm).

(** Sum and mean of a float column.  NaN entries are skipped; an infinite
    entry makes the sum infinite, two of opposite sign make it NaN. *)
Definition pd_add (x y : pdfloat) : pdfloat :=
  match x, y with
  | Fin a, Fin b => Fin (Qplus a b)
  | NaN, _ | _, NaN => NaN
  | PosInf, NegInf | NegInf, PosInf => NaN
  | PosInf, _ | _, PosInf => PosInf
  | NegInf, _ | _, NegInf => NegInf
  end.

Definition notna (x : pdfloat) : bool :=
  match x with NaN => false | _ => true end.

Definition mean_float (xs : list pdfloat) : pdfloat :=
  match filter notna xs with
  | [] => NaN
  | ys => match fold_right pd_add (Fin (inject_Z 0)) ys with
          | Fin total => Fin (Qdiv total (inject_Z (Z.of_nat (List.length ys))))
          | other => other
          end
  end.

(** Avg Satisfaction card: [satisfaction_over_time['mean'].mean()], the
    mean of the monthly means. *)
Definition avg_satisfaction (rows : list SatisfactionRow) : pdfloat :=
  mean_float (map mean_score rows).

(** Lead Leakage row of the leads tab:
    [total_qualified_leads - total_closed_leads] leads and
    [100 - conversion_rate] percent. *)
Definition lead_leakage (lm : LeadMetrics.t) : Z * Q :=
  (LeadMetrics.total_qualified_leads lm - LeadMetrics.total_closed_leads lm,
   Qminus (inject_Z 100) (LeadMetrics.conversion_rate lm)).

(** Axis label of the Top Sellers chart: [seller_id.str[:15] + '...']. *)
Definition seller_axis_label (seller_id : string) : string :=
  substring 0 15 seller_id ++ "...".

(** The ten rows the Top Sellers chart draws and their axis labels. *)
Definition top_sellers_chart (by_seller : list RevenueRow) : list (string * Z) :=
  map (fun r => (seller_axis_label (label r), total_revenue r)) (head 10 by_seller).

Section ValueCounts.

Context {K : Type} `{KO : KeyOrd K}.

Definition kle (a b : K) : Prop := kcmp a b <> Gt.

(** The distinct values of a column in order of first appearance. *)
Fixpoint unique (xs : list K) : list K :=
  match xs with
  | [] => []
  | x :: rest => x :: filter (fun y => negb (keqb y x)) (unique rest)
  end.

(** [col.value_counts()]: every distinct value with the number of its
    occurrences, the most frequent first. *)
Definition value_counts (s : Sorter) (xs : list K) : list (K * Z) :=
  sort_desc s snd
    (map (fun v => (v, count (filter (fun y => keqb y v) xs))) (unique xs)).

Fixpoint insert_by_index (row : K * Z) (rows : list (K * Z)) : list (K * Z) :=
  match rows with
  | [] => [row]
  | r :: rest =>
      match kcmp (fst row) (fst r) with
      | Gt => r :: insert_by_index row rest
      | _ => row :: r :: rest
      end
  end.

(** [.sort_index()] of a counted column: rows in ascending order of the
    value. *)
Definition sort_index (rows : list (K * Z)) : list (K * Z) :=
  fold_right insert_by_index [] rows.

End ValueCounts.

(** Satisfaction tab:
    [order_reviews_clean['review_score'].value_counts().sort_index()] *)
Definition review_distribution (s : Sorter) (reviews : list OrderReview.t)
  : list (Z * Z) :=
  sort_index (value_counts s (map OrderReview.review_score reviews)).

(** Delivery tab: [delivery_metrics['delay_status'].value_counts()] *)
Definition delay_distribution (s : Sorter) (dm : list DeliveryRow)
  : list (string * Z) :=
  value_counts s (map dm_delay_status dm).

(** Twenty sellers with one item of price 10 and a twenty-first with one
    item of price 5. *)
Definition ranked_items : list OrderItem.t :=
  map (fun seller => item 1 "p" seller 10) sellers20 ++ [item 2 "p" "s21" 5].

(** The qualified lead has a closed deal. *)
Definition has_deal (closed : list ClosedLead.t) (mql_id : Z) : bool :=
  existsb (fun c => Z.eqb mql_id (ClosedLead.mql_id c)) closed.

(** The delay status is one of the three labels the delivery tab asks
    for. *)
Definition known_status (r : DeliveryRow) : Prop :=
  dm_delay_status r = "Early" \/ dm_delay_status r = "On Time" \/
  dm_delay_status r = "Late".

(** How a drawn delay relates to the recorded one. *)
Definition clipped_from (recorded drawn : option Z) : Prop :=
  match recorded, drawn with
  | None, None => True
  | Some d, Some c =>
      -30 <= c <= 30 /\ (-30 <= d <= 30 -> c = d) /\
      (d < -30 -> c = -30) /\ (30 < d -> c = 30)
  | _, _ => False
  end.

(** * Properties *)

(** ** Group keys *)

Section KeyFacts.

Context {K : Type} {KO : KeyOrd K}.

Lemma kcmp_refl (a : K) : kcmp a a = Eq.
Proof. now apply kcmp_eq. Qed.

Lemma keqb_eq (a b : K) : keqb a b = true <-> a = b.
Proof.
  unfold keqb. rewrite <- kcmp_eq.
  destruct (kcmp a b); split; intro; congruence.
Qed.

Lemma keqb_refl (a : K) : keqb a a = true.
Proof. now apply keqb_eq. Qed.

Lemma klt_irrefl (a : K) : ~ klt a a.
Proof. unfold klt. rewrite kcmp_refl. discriminate. Qed.

Lemma kcmp_gt_lt (a b : K) : kcmp a b = Gt -> klt b a.
Proof.
  unfold klt. intro Hab. rewrite kcmp_antisym, Hab. reflexivity.
Qed.

Lemma klt_trans (a b c : K) : klt a b -> klt b c -> klt a c.
Proof. apply kcmp_trans. Qed.

Lemma klt_asym (a b : K) : klt a b -> ~ klt b a.
Proof.
  intros Hab Hba. exact (klt_irrefl a (klt_trans _ _ _ Hab Hba)).
Qed.

Lemma insert_key_In (k x : K) (l : list K) :
  In x (insert_key k l) <-> x = k \/ In x l.
Proof.
  induction l as [|h t IH]; simpl.
  - intuition.
  - destruct (kcmp k h) eqn:E; simpl.
    + apply kcmp_eq in E. subst h. intuition.
    + intuition.
    + rewrite IH. intuition.
Qed.

Lemma insert_key_sorted (k : K) (l : list K) :
  StronglySorted klt l -> StronglySorted klt (insert_key k l).
Proof.
  induction 1 as [|h t Ht IH Hh]; simpl.
  - constructor; constructor.
  - destruct (kcmp k h) eqn:E.
    + constructor; assumption.
    + constructor.
      * constructor; assumption.
      * constructor; [exact E|].
        eapply Forall_impl; [|exact Hh].
        intros a Ha. exact (klt_trans _ _ _ E Ha).
    + constructor; [exact IH|].
      apply Forall_forall. intros x Hx.
      apply insert_key_In in Hx. destruct Hx as [->|Hx].
      * now apply kcmp_gt_lt.
      * rewrite Forall_forall in Hh. now apply Hh.
Qed.

Lemma group_keys_In (x : K) (ks : list K) : In x (group_keys ks) <-> In x ks.
Proof.
  induction ks as [|k ks IH]; simpl.
  - reflexivity.
  - rewrite insert_key_In, IH. intuition.
Qed.

Lemma group_keys_sorted (ks : list K) : StronglySorted klt (group_keys ks).
Proof.
  induction ks as [|k ks IH]; simpl.
  - constructor.
  - now apply insert_key_sorted.
Qed.

Lemma klt_sorted_NoDup (l : list K) : StronglySorted klt l -> NoDup l.
Proof.
  induction 1 as [|h t Ht IH Hh].
  - constructor.
  - constructor; [|exact IH].
    intro Hin. rewrite Forall_forall in Hh.
    exact (klt_irrefl h (Hh h Hin)).
Qed.

Lemma group_keys_NoDup (ks : list K) : NoDup (group_keys ks).
Proof. apply klt_sorted_NoDup, group_keys_sorted. Qed.

(** A strictly ascending list is determined by its elements. *)
Lemma klt_sorted_ext (l1 l2 : list K) :
  StronglySorted klt l1 -> StronglySorted klt l2 ->
  (forall x, In x l1 <-> In x l2) -> l1 = l2.
Proof.
  intros H1. revert l2.
  induction H1 as [|a t1 Ht1 IH Ha]; intros l2 H2 Hext.
  - destruct l2 as [|b t2]; [reflexivity|].
    exfalso. apply (proj2 (Hext b)). now left.
  - destruct H2 as [|b t2 Ht2 Hb].
    + exfalso. apply (proj1 (Hext a)). now left.
    + rewrite Forall_forall in Ha, Hb.
      assert (a = b) as <-.
      { destruct (proj1 (Hext a) (or_introl eq_refl)) as [E|Hin]; [now symmetry|].
        destruct (proj2 (Hext b) (or_introl eq_refl)) as [E|Hin']; [exact E|].
        exfalso. exact (klt_asym _ _ (Ha _ Hin') (Hb _ Hin)). }
      f_equal. apply IH; [exact Ht2|].
      intro x. split; intro Hx.
      * destruct (proj1 (Hext x) (or_intror Hx)) as [E|Hin]; [|exact Hin].
        subst x. exfalso. exact (klt_irrefl _ (Ha _ Hx)).
      * destruct (proj2 (Hext x) (or_intror Hx)) as [E|Hin]; [|exact Hin].
        subst x. exfalso. exact (klt_irrefl _ (Hb _ Hx)).
Qed.

Lemma group_keys_ext (l1 l2 : list K) :
  (forall x, In x l1 <-> In x l2) -> group_keys l1 = group_keys l2.
Proof.
  intro Hext. apply klt_sorted_ext; try apply group_keys_sorted.
  intro x. rewrite !group_keys_In. apply Hext.
Qed.

End KeyFacts.

(** ** Column sums *)

Lemma col_sum_app {R} (f : R -> Z) (l1 l2 : list R) :
  col_sum f (l1 ++ l2) = col_sum f l1 + col_sum f l2.
Proof.
  unfold col_sum. induction l1 as [|x l1 IH]; simpl; [reflexivity|].
  rewrite IH. lia.
Qed.

Lemma col_sum_cons {R} (f : R -> Z) (x : R) (l : list R) :
  col_sum f (x :: l) = f x + col_sum f l.
Proof. reflexivity. Qed.

Lemma col_sum_perm {R} (f : R -> Z) (l1 l2 : list R) :
  Permutation l1 l2 -> col_sum f l1 = col_sum f l2.
Proof.
  induction 1; rewrite ?col_sum_cons; lia.
Qed.

Lemma col_sum_nonneg {R} (f : R -> Z) (l : list R) :
  (forall x, In x l -> 0 <= f x) -> 0 <= col_sum f l.
Proof.
  induction l as [|x l IH]; intro Hf; rewrite ?col_sum_cons.
  - reflexivity.
  - assert (0 <= f x) by (apply Hf; now left).
    assert (0 <= col_sum f l) by (apply IH; intros; apply Hf; now right).
    lia.
Qed.

Lemma col_sum_ext {R} (f g : R -> Z) (l : list R) :
  (forall x, In x l -> f x = g x) -> col_sum f l = col_sum g l.
Proof.
  induction l as [|x l IH]; intro Hfg; rewrite ?col_sum_cons; [reflexivity|].
  rewrite IH, (Hfg x); auto using in_eq, in_cons.
Qed.

Lemma col_sum_plus {R} (f g : R -> Z) (l : list R) :
  col_sum (fun x => f x + g x) l = col_sum f l + col_sum g l.
Proof.
  induction l as [|x l IH]; rewrite ?col_sum_cons; [reflexivity|].
  rewrite IH. lia.
Qed.

Lemma col_sum_map {A R} (h : A -> R) (f : R -> Z) (l : list A) :
  col_sum f (map h l) = col_sum (fun a => f (h a)) l.
Proof. unfold col_sum. now rewrite map_map. Qed.

Lemma col_sum_const_0 {R} (l : list R) : col_sum (fun _ => 0) l = 0.
Proof. induction l; rewrite ?col_sum_cons; [reflexivity|lia]. Qed.

Lemma col_sum_member {R} (f : R -> Z) (x : R) (l : list R) :
  (forall y, In y l -> 0 <= f y) -> In x l -> f x <= col_sum f l.
Proof.
  induction l as [|y l IH]; intros Hf Hin; [destruct Hin|].
  rewrite col_sum_cons.
  assert (0 <= f y) by (apply Hf; now left).
  assert (0 <= col_sum f l) by (apply col_sum_nonneg; intros; apply Hf; now right).
  destruct Hin as [->|Hin]; [lia|].
  assert (f x <= col_sum f l) by (apply IH; auto; intros; apply Hf; now right).
  lia.
Qed.

Lemma col_sum_firstn {R} (f : R -> Z) (n : nat) (l : list R) :
  (forall y, In y l -> 0 <= f y) -> col_sum f (firstn n l) <= col_sum f l.
Proof.
  intro Hf. rewrite <- (firstn_skipn n l) at 2. rewrite col_sum_app.
  assert (0 <= col_sum f (skipn n l)); [|lia].
  apply col_sum_nonneg. intros x Hx. apply Hf.
  rewrite <- (firstn_skipn n l). apply in_or_app. now right.
Qed.

Lemma count_as_sum {R} (l : list R) : count l = col_sum (fun _ => 1) l.
Proof.
  unfold count. induction l as [|x l IH]; [reflexivity|].
  rewrite col_sum_cons, <- IH. simpl List.length. lia.
Qed.

Lemma count_nonneg {R} (l : list R) : 0 <= count l.
Proof. unfold count. lia. Qed.

Lemma col_sum_filter_le {R} (f : R -> Z) (p : R -> bool) (l : list R) :
  (forall y, In y l -> 0 <= f y) -> col_sum f (filter p l) <= col_sum f l.
Proof.
  induction l as [|x l IH]; intro Hf; simpl; [reflexivity|].
  assert (0 <= f x) by (apply Hf; now left).
  assert (col_sum f (filter p l) <= col_sum f l)
    by (apply IH; intros; apply Hf; now right).
  destruct (p x); rewrite ?col_sum_cons; lia.
Qed.

(** ** Groups *)

Section GroupFacts.

Context {K : Type} {KO : KeyOrd K} {R : Type}.
Variable key : R -> option K.

Lemma in_group_true (k : K) (r : R) : in_group key k r = true <-> key r = Some k.
Proof.
  unfold in_group. destruct (key r) as [k'|].
  - rewrite keqb_eq. split; congruence.
  - split; discriminate.
Qed.

Lemma dropna_In (k : K) (rows : list R) :
  In k (dropna key rows) <-> exists r, In r rows /\ key r = Some k.
Proof.
  unfold dropna. rewrite in_flat_map. split.
  - intros (r & Hr & Hk). exists r. split; [exact Hr|].
    destruct (key r); simpl in Hk; intuition congruence.
  - intros (r & Hr & Hk). exists r. split; [exact Hr|].
    rewrite Hk. now left.
Qed.

Lemma groupby_keys (rows : list R) :
  map fst (groupby key rows) = group_keys (dropna key rows).
Proof.
  unfold groupby. rewrite map_map. simpl. apply map_id.
Qed.

Lemma groupby_In (kg : K * list R) (rows : list R) :
  In kg (groupby key rows) <->
  In (fst kg) (dropna key rows) /\ snd kg = filter (in_group key (fst kg)) rows.
Proof.
  unfold groupby. rewrite in_map_iff. split.
  - intros (k & <- & Hk). simpl. split; [|reflexivity].
    now apply group_keys_In.
  - intros (Hk & Hg). exists (fst kg). split.
    + rewrite <- Hg. now destruct kg.
    + now apply group_keys_In.
Qed.

Lemma groupby_keys_sorted (rows : list R) :
  StronglySorted klt (map fst (groupby key rows)).
Proof. rewrite groupby_keys. apply group_keys_sorted. Qed.

Lemma groupby_nonempty (kg : K * list R) (rows : list R) :
  In kg (groupby key rows) -> snd kg <> [].
Proof.
  intro H. apply groupby_In in H. destruct H as (Hk & ->).
  apply dropna_In in Hk. destruct Hk as (r & Hr & Hk).
  intro E. assert (Hin : In r (filter (in_group key (fst kg)) rows)).
  { apply filter_In. split; [exact Hr|]. now apply in_group_true. }
  rewrite E in Hin. destruct Hin.
Qed.

(** Summing a column group by group gives its sum over the rows that have
    a key: the groups partition those rows. *)
Lemma indicator_sum (f : R -> Z) (r : R) (ks : list K) :
  NoDup ks ->
  (forall k, key r = Some k -> In k ks) ->
  col_sum (fun k => if in_group key k r then f r else 0) ks
  = if keyed key r then f r else 0.
Proof.
  unfold keyed. intros Hnd Hin. destruct (key r) as [k0|] eqn:Ek.
  - specialize (Hin k0 eq_refl).
    induction Hnd as [|k ks Hk Hnd IH]; [destruct Hin|].
    rewrite col_sum_cons.
    destruct Hin as [->|Hin].
    + replace (in_group key k0 r) with true
        by (symmetry; now apply in_group_true).
      rewrite (col_sum_ext _ (fun _ => 0)), col_sum_const_0; [lia|].
      intros x Hx. destruct (in_group key x r) eqn:E; [|reflexivity].
      apply in_group_true in E. congruence.
    + rewrite IH by exact Hin.
      destruct (in_group key k r) eqn:E; [|lia].
      apply in_group_true in E. congruence.
  - rewrite (col_sum_ext _ (fun _ => 0)), col_sum_const_0; [reflexivity|].
    intros x _. unfold in_group. now rewrite Ek.
Qed.

Lemma groups_sum_over (f : R -> Z) (rows : list R) (ks : list K) :
  NoDup ks ->
  (forall r k, In r rows -> key r = Some k -> In k ks) ->
  col_sum (fun k => col_sum f (filter (in_group key k) rows)) ks
  = col_sum f (filter (keyed key) rows).
Proof.
  intros Hnd. induction rows as [|r rows IH]; intro Hin.
  - simpl. apply col_sum_const_0.
  - rewrite (col_sum_ext _ (fun k => (if in_group key k r then f r else 0)
                                     + col_sum f (filter (in_group key k) rows))).
    + rewrite col_sum_plus, IH, indicator_sum; auto.
      * simpl. destruct (keyed key r); rewrite ?col_sum_cons; lia.
      * intros k Hk. apply (Hin r); [now left|exact Hk].
      * intros r' k Hr' Hk. apply (Hin r'); [now right|exact Hk].
    + intros k _. simpl. destruct (in_group key k r); rewrite ?col_sum_cons; lia.
Qed.

Lemma groupby_sum (f : R -> Z) (rows : list R) :
  col_sum (fun kg => col_sum f (snd kg)) (groupby key rows)
  = col_sum f (filter (keyed key) rows).
Proof.
  unfold groupby. rewrite col_sum_map. simpl.
  apply groups_sum_over.
  - apply group_keys_NoDup.
  - intros r k Hr Hk. apply group_keys_In, dropna_In. now exists r.
Qed.

End GroupFacts.

(** ** Merges *)

Section MergeFacts.

Context {L R J : Type}.
Variable eqb : J -> J -> bool.
Variables (kl : L -> J) (kr : R -> J).
Hypothesis eqb_eq : forall a b, eqb a b = true <-> a = b.

Lemma matches_In (l : L) (r : R) (right : list R) :
  In r (matches eqb kl kr l right) <-> In r right /\ kl l = kr r.
Proof. unfold matches. now rewrite filter_In, eqb_eq. Qed.

Lemma merge_inner_In (l : L) (r : R) (left : list L) (right : list R) :
  In (l, r) (merge_inner eqb kl kr left right) <->
  In l left /\ In r right /\ kl l = kr r.
Proof.
  unfold merge_inner. rewrite in_flat_map. split.
  - intros (l' & Hl' & Hin). apply in_map_iff in Hin.
    destruct Hin as (r' & E & Hr'). inversion E; subst.
    apply matches_In in Hr'. tauto.
  - intros (Hl & Hr & E). exists l. split; [exact Hl|].
    apply in_map. now apply matches_In.
Qed.

Lemma merge_inner_cons (l : L) (left : list L) (right : list R) :
  merge_inner eqb kl kr (l :: left) right
  = map (pair l) (matches eqb kl kr l right) ++ merge_inner eqb kl kr left right.
Proof. reflexivity. Qed.

Lemma merge_left_cons (l : L) (left : list L) (right : list R) :
  merge_left eqb kl kr (l :: left) right
  = match matches eqb kl kr l right with
    | [] => [(l, None)]
    | ms => map (fun r => (l, Some r)) ms
    end ++ merge_left eqb kl kr left right.
Proof. reflexivity. Qed.

(** With distinct keys on the right, a left row has at most one partner. *)
Lemma matches_unique (l : L) (right : list R) :
  NoDup (map kr right) -> (List.length (matches eqb kl kr l right) <= 1)%nat.
Proof.
  induction right as [|r right IH]; simpl; intro Hnd; [lia|].
  inversion Hnd as [|? ? Hnot Hnd']; subst.
  destruct (eqb (kl l) (kr r)) eqn:E; [|now apply IH].
  apply eqb_eq in E.
  assert (Hnone : matches eqb kl kr l right = []).
  { destruct (matches eqb kl kr l right) as [|r' ms] eqn:Em; [reflexivity|].
    exfalso. assert (Hr' : In r' (matches eqb kl kr l right))
      by (rewrite Em; now left).
    apply matches_In in Hr'. destruct Hr' as [Hr' E'].
    apply Hnot. rewrite <- E, E'. now apply in_map. }
  rewrite Hnone. simpl. lia.
Qed.

Lemma col_sum_merge_inner_le (f : L -> Z) (left : list L) (right : list R) :
  NoDup (map kr right) ->
  (forall l, In l left -> 0 <= f l) ->
  col_sum (fun p => f (fst p)) (merge_inner eqb kl kr left right) <= col_sum f left.
Proof.
  intros Hnd. induction left as [|l left IH]; intro Hf; [reflexivity|].
  rewrite merge_inner_cons, col_sum_app, col_sum_cons, col_sum_map. simpl.
  assert (Hl : 0 <= f l) by (apply Hf; now left).
  assert (IH' : col_sum (fun p => f (fst p)) (merge_inner eqb kl kr left right)
                <= col_sum f left) by (apply IH; intros; apply Hf; now right).
  pose proof (matches_unique l right Hnd) as Hm.
  destruct (matches eqb kl kr l right) as [|r1 [|r2 ms]];
    simpl in Hm; rewrite ?col_sum_cons; unfold col_sum at 1; simpl; lia.
Qed.

Lemma count_merge_inner_le (left : list L) (right : list R) :
  NoDup (map kr right) ->
  count (merge_inner eqb kl kr left right) <= count left.
Proof.
  intro Hnd. rewrite !count_as_sum.
  apply (col_sum_merge_inner_le (fun _ => 1)); [exact Hnd|]. intros; lia.
Qed.

(** A left merge keeps every left row; with distinct keys on the right it
    keeps it exactly once. *)
Lemma merge_left_fst (left : list L) (right : list R) :
  NoDup (map kr right) ->
  map fst (merge_left eqb kl kr left right) = left.
Proof.
  intro Hnd. induction left as [|l left IH]; [reflexivity|].
  rewrite merge_left_cons, map_app, IH.
  pose proof (matches_unique l right Hnd) as Hm.
  destruct (matches eqb kl kr l right) as [|r1 [|r2 ms]]; simpl in *;
    [reflexivity|reflexivity|lia].
Qed.

Lemma merge_left_In_left (l : L) (left : list L) (right : list R) :
  In l left -> exists o, In (l, o) (merge_left eqb kl kr left right).
Proof.
  intro Hl. unfold merge_left.
  destruct (matches eqb kl kr l right) as [|r ms] eqn:Em.
  - exists None. apply in_flat_map. exists l. split; [exact Hl|].
    rewrite Em. now left.
  - exists (Some r). apply in_flat_map. exists l. split; [exact Hl|].
    rewrite Em. now left.
Qed.

End MergeFacts.

(** ** Revenue reports *)

Lemma keqb_string (a b : string) : keqb a b = String.eqb a b.
Proof.
  destruct (String.eqb a b) eqn:E.
  - apply String.eqb_eq in E. subst. apply keqb_refl.
  - apply String.eqb_neq in E. destruct (keqb a b) eqn:E'; [|reflexivity].
    apply keqb_eq in E'. contradiction.
Qed.

Lemma agg_revenue_In {R} (price : R -> Z) (groups : list (string * list R))
    (row : RevenueRow) :
  In row (agg_revenue price groups) <->
  exists kg, In kg groups /\
             row = {| label := fst kg;
                      total_revenue := col_sum price (snd kg);
                      order_count := count (snd kg) |}.
Proof.
  unfold agg_revenue. rewrite in_map_iff. split; intros (kg & H1 & H2).
  - exists kg. now split.
  - exists kg. now split.
Qed.

Lemma sort_desc_In (s : Sorter) {R} (f : R -> Z) (l : list R) (x : R) :
  In x (sort_desc s f l) <-> In x l.
Proof.
  split; apply Permutation_in.
  - apply Permutation_sym, sort_desc_perm.
  - apply sort_desc_perm.
Qed.

Lemma StronglySorted_firstn {A} (P : A -> A -> Prop) (n : nat) (l : list A) :
  StronglySorted P l -> StronglySorted P (firstn n l).
Proof.
  intro H. revert n. induction H as [|x l Hl IH Hx]; intro n.
  - rewrite firstn_nil. constructor.
  - destruct n as [|n]; simpl; constructor.
    + apply IH.
    + rewrite Forall_forall in *. intros y Hy. apply Hx.
      rewrite <- (firstn_skipn n l). apply in_or_app. now left.
Qed.

Lemma revenue_by_category_descending (s : Sorter) items products translation :
  descending (revenue_by_category s items products translation).
Proof. apply sort_desc_sorted. Qed.

Lemma revenue_by_region_descending (s : Sorter) items orders customers :
  descending (revenue_by_region s items orders customers).
Proof. apply sort_desc_sorted. Qed.

Lemma revenue_by_seller_descending (s : Sorter) items :
  descending (revenue_by_seller s items).
Proof. apply StronglySorted_firstn, sort_desc_sorted. Qed.

Lemma revenue_by_seller_length (s : Sorter) items :
  (List.length (revenue_by_seller s items) <= 20)%nat.
Proof. apply firstn_le_length. Qed.

(** Rows of a revenue report, read off the grouped frame. *)
Lemma grouped_revenue_row {R} (s : Sorter) (key : R -> string) (price : R -> Z)
    (rows : list R) (row : RevenueRow) :
  In row (sort_desc s total_revenue
            (agg_revenue price (groupby (fun r => Some (key r)) rows))) ->
  let g := filter (fun r => String.eqb (key r) (label row)) rows in
  g <> [] /\ total_revenue row = col_sum price g /\ order_count row = count g.
Proof.
  intros Hin g. apply sort_desc_In, agg_revenue_In in Hin.
  destruct Hin as (kg & Hkg & ->). simpl in g.
  pose proof (groupby_nonempty _ _ _ Hkg) as Hne.
  apply groupby_In in Hkg. destruct Hkg as [_ Hg].
  assert (E : snd kg = g).
  { rewrite Hg. subst g. apply filter_ext. intro r.
    unfold in_group. apply keqb_string. }
  simpl. rewrite <- E. auto.
Qed.

(** C1 (as the code has it): every row of RevenueByCategory carries, for
    its English category name, the number of rows of the merged frame (order
    items merged with their product and its category translation) that have
    this name, which is at least one, and the sum of their price column: a
    count of merged rows, not of distinct order_id values.  The rows are in
    descending order of total_revenue. *)
Theorem revenue_by_category_rows (s : Sorter) items products translation row :
  In row (revenue_by_category s items products translation) ->
  let joined := category_rows (label row) items products translation in
  joined <> [] /\
  total_revenue row = col_sum (fun r => OrderItem.price (fst (fst r))) joined /\
  order_count row = count joined /\
  descending (revenue_by_category s items products translation).
Proof.
  intros Hin joined.
  destruct (grouped_revenue_row s _ _ _ row Hin) as (H1 & H2 & H3).
  repeat split; try assumption. apply revenue_by_category_descending.
Qed.

Lemma revenue_by_category_rows_witness :
  let row := {| label := "bed"; total_revenue := 30; order_count := 2 |} in
  In row (revenue_by_category stable_sorter two_items_one_order one_product one_translation) /\
  order_count row = count (category_rows "bed" two_items_one_order one_product one_translation).
Proof.
  assert (Hin : In {| label := "bed"; total_revenue := 30; order_count := 2 |}
                   (revenue_by_category stable_sorter two_items_one_order
                      one_product one_translation))
    by (vm_compute; left; reflexivity).
  split; [exact Hin|].
  exact (proj1 (proj2 (proj2 (revenue_by_category_rows stable_sorter
           two_items_one_order one_product one_translation _ Hin)))).
Defined.

(** C1 as stated fails: an order with two items in one category is counted
    twice, while it has one distinct order_id. *)
Lemma order_count_counts_item_rows :
  exists row,
    In row (revenue_by_category stable_sorter two_items_one_order one_product one_translation) /\
    order_count row = 2 /\
    distinct_order_count
      (category_rows (label row) two_items_one_order one_product one_translation) = 1.
Proof.
  exists {| label := "bed"; total_revenue := 30; order_count := 2 |}.
  vm_compute. repeat split; try reflexivity. now left.
Qed.

Lemma sort_desc_singleton (s : Sorter) {R} (f : R -> Z) (x : R) :
  sort_desc s f [x] = [x].
Proof. apply Permutation_length_1_inv, sort_desc_perm. Qed.

(** C4: the three revenue reports are in descending order of
    total_revenue, RevenueBySeller has at most 20 rows, and two items of
    seller "A" from orders 1 and 2, priced 10 and 20, give the row
    {seller_id: "A", total_revenue: 30, order_count: 2}. *)
Theorem revenue_reports_descending (s : Sorter) items products translation
    orders customers (p1 p2 : string) :
  descending (revenue_by_category s items products translation) /\
  descending (revenue_by_region s items orders customers) /\
  descending (revenue_by_seller s items) /\
  (List.length (revenue_by_seller s items) <= 20)%nat /\
  In {| label := "A"; total_revenue := 30; order_count := 2 |}
     (revenue_by_seller s [item 1 p1 "A" 10; item 2 p2 "A" 20]).
Proof.
  split; [apply revenue_by_category_descending|].
  split; [apply revenue_by_region_descending|].
  split; [apply revenue_by_seller_descending|].
  split; [apply revenue_by_seller_length|].
  unfold revenue_by_seller.
  replace (seller_totals [item 1 p1 "A" 10; item 2 p2 "A" 20])
    with [{| label := "A"; total_revenue := 30; order_count := 2 |}]
    by reflexivity.
  rewrite sort_desc_singleton. now left.
Qed.

(** ** RevenueBySeller and the order of the input rows *)

Lemma dropna_In_group {K} {KO : KeyOrd K} {R} (key : R -> option K)
    (rows : list R) (k : K) :
  In k (dropna key rows) <-> filter (in_group key k) rows <> [].
Proof.
  rewrite dropna_In. split.
  - intros (r & Hr & Hk) E.
    assert (Hin : In r (filter (in_group key k) rows))
      by (apply filter_In; split; [exact Hr|now apply in_group_true]).
    rewrite E in Hin. destruct Hin.
  - intro Hne. destruct (filter (in_group key k) rows) as [|r rest] eqn:E;
      [contradiction|].
    assert (Hin : In r (filter (in_group key k) rows)) by (rewrite E; now left).
    apply filter_In in Hin. destruct Hin as [Hr Hk]. exists r.
    split; [exact Hr|now apply in_group_true].
Qed.

(** Two frames in which every key has the same rows in the same order are
    grouped alike: same keys, same groups.  Whatever is computed group by
    group is then the same, however a group is summed. *)
Lemma groupby_same_groups {K} {KO : KeyOrd K} {R} (key : R -> option K)
    (rows1 rows2 : list R) :
  (forall k, filter (in_group key k) rows1 = filter (in_group key k) rows2) ->
  groupby key rows1 = groupby key rows2.
Proof.
  intro H. unfold groupby.
  rewrite (group_keys_ext (dropna key rows1) (dropna key rows2))
    by (intro k; now rewrite !dropna_In_group, H).
  apply map_ext. intro k. now rewrite H.
Qed.

Lemma seller_totals_labels (items : list OrderItem.t) :
  map label (seller_totals items)
  = group_keys (map OrderItem.seller_id items).
Proof.
  unfold seller_totals, agg_revenue, groupby. rewrite !map_map. simpl.
  rewrite map_id. apply (f_equal group_keys). unfold dropna.
  induction items as [|i items IH]; simpl; [reflexivity|]. now rewrite IH.
Qed.

(** C6 (as the code has it): RevenueBySeller depends on the OrderItem rows
    only through each seller's own sequence of item rows.  Two frames in
    which every seller has the same rows in the same relative order give the
    same report, wherever the sellers first occur: the sellers are laid out
    in ascending seller_id order before the descending sort, so which of the
    sellers tied at the 20th position is retained is settled by the sort
    routine on that frame, never by the order of first occurrence. *)
Theorem revenue_by_seller_ignores_seller_order (s : Sorter) items1 items2 :
  (forall seller,
     filter (fun i => String.eqb (OrderItem.seller_id i) seller) items1
     = filter (fun i => String.eqb (OrderItem.seller_id i) seller) items2) ->
  StronglySorted klt (map label (seller_totals items1)) /\
  groupby (fun i => Some (OrderItem.seller_id i)) items1
  = groupby (fun i => Some (OrderItem.seller_id i)) items2 /\
  seller_totals items1 = seller_totals items2 /\
  revenue_by_seller s items1 = revenue_by_seller s items2.
Proof.
  intro H.
  assert (Hg : groupby (fun i => Some (OrderItem.seller_id i)) items1
               = groupby (fun i => Some (OrderItem.seller_id i)) items2).
  { apply groupby_same_groups. intro k.
    rewrite !(filter_ext (in_group (fun i => Some (OrderItem.seller_id i)) k)
                         (fun i => String.eqb (OrderItem.seller_id i) k))
      by (intro i; apply keqb_string).
    apply H. }
  split; [rewrite seller_totals_labels; apply group_keys_sorted|].
  split; [exact Hg|].
  unfold revenue_by_seller, seller_totals. rewrite Hg. split; reflexivity.
Qed.

Lemma sellers_swapped (seller : string) :
  filter (fun i => String.eqb (OrderItem.seller_id i) seller)
         [item 1 "p" "B" 10; item 2 "q" "A" 10]
  = filter (fun i => String.eqb (OrderItem.seller_id i) seller)
           [item 2 "q" "A" 10; item 1 "p" "B" 10].
Proof.
  cbn [filter item OrderItem.seller_id].
  destruct (String.eqb "B" seller) eqn:EB, (String.eqb "A" seller) eqn:EA;
    try reflexivity.
  apply String.eqb_eq in EB. apply String.eqb_eq in EA. congruence.
Qed.

Lemma revenue_by_seller_ignores_seller_order_witness :
  revenue_by_seller stable_sorter [item 1 "p" "B" 10; item 2 "q" "A" 10]
  = revenue_by_seller stable_sorter [item 2 "q" "A" 10; item 1 "p" "B" 10].
Proof.
  exact (proj2 (proj2 (proj2
           (revenue_by_seller_ignores_seller_order stable_sorter
              [item 1 "p" "B" 10; item 2 "q" "A" 10]
              [item 2 "q" "A" 10; item 1 "p" "B" 10] sellers_swapped)))).
Defined.

Lemma ties_apply (s : Sorter) items a b :
  ties_by_input_order s items ->
  earlier_and_tied items a b = true ->
  retained s items b -> retained s items a.
Proof.
  intros H E. unfold earlier_and_tied in E.
  destruct (first_occurrence a items) as [ia|] eqn:Ea; [|discriminate].
  destruct (first_occurrence b items) as [ib|] eqn:Eb; [|discriminate].
  apply andb_true_iff in E. destruct E as [E1 E2].
  apply Nat.ltb_lt in E1. apply Z.eqb_eq in E2.
  exact (H a b ia ib Ea Eb E1 E2).
Qed.

Lemma retained_in_totals (s : Sorter) items seller :
  retained s items seller -> In seller (map label (seller_totals items)).
Proof.
  unfold retained, revenue_by_seller, head. intro H.
  apply in_map_iff in H. destruct H as (row & <- & Hrow).
  apply in_map. apply (sort_desc_In s total_revenue).
  rewrite <- (firstn_skipn 20 (sort_desc s total_revenue (seller_totals items))).
  apply in_or_app. now left.
Qed.

Lemma revenue_by_seller_full (s : Sorter) items :
  (20 <= List.length (seller_totals items))%nat ->
  List.length (revenue_by_seller s items) = 20%nat.
Proof.
  intro H. unfold revenue_by_seller, head.
  rewrite firstn_length_le; [reflexivity|].
  now rewrite <- (Permutation_length (sort_desc_perm s _ total_revenue _)).
Qed.

(** C6 as stated fails, whatever the sort routine does with ties: the two
    frames hold the same 21 tied sellers, "s21" last in one and first in the
    other, and no routine breaks the tie by input order on both. *)
Lemma ties_not_broken_by_input_order :
  ~ exists s : Sorter,
      ties_by_input_order s tied_items_1 /\ ties_by_input_order s tied_items_2.
Proof.
  intros (s & H1 & H2).
  assert (ET : seller_totals tied_items_2 = seller_totals tied_items_1)
    by (vm_compute; reflexivity).
  assert (EL : map label (seller_totals tied_items_1) = sellers20 ++ ["s21"])
    by (vm_compute; reflexivity).
  assert (ER : revenue_by_seller s tied_items_2 = revenue_by_seller s tied_items_1)
    by (unfold revenue_by_seller; now rewrite ET).
  assert (Hlen : List.length (map label (revenue_by_seller s tied_items_1)) = 20%nat).
  { rewrite length_map. apply revenue_by_seller_full. vm_compute. lia. }
  assert (Hnd : NoDup (sellers20 ++ ["s21"])).
  { rewrite <- EL, seller_totals_labels. apply group_keys_NoDup. }
  destruct (in_dec string_dec "s21" (map label (revenue_by_seller s tied_items_1)))
    as [Hin|Hout].
  - assert (Hall : incl (sellers20 ++ ["s21"])
                        (map label (revenue_by_seller s tied_items_1))).
    { intros a Ha. apply in_app_or in Ha. destruct Ha as [Ha|[<-|[]]]; [|exact Hin].
      apply (ties_apply s tied_items_1 a "s21" H1); [|exact Hin].
      assert (Hc : forallb (fun a => earlier_and_tied tied_items_1 a "s21") sellers20
                   = true) by (vm_compute; reflexivity).
      rewrite forallb_forall in Hc. now apply Hc. }
    pose proof (NoDup_incl_length Hnd Hall) as Hle.
    rewrite Hlen in Hle. vm_compute in Hle. lia.
  - assert (Hne : exists b, retained s tied_items_1 b).
    { unfold retained.
      destruct (map label (revenue_by_seller s tied_items_1)) as [|b rest];
        [discriminate|]. exists b. now left. }
    destruct Hne as (b & Hb).
    pose proof (retained_in_totals _ _ _ Hb) as Hb'. rewrite EL in Hb'.
    apply in_app_or in Hb'. destruct Hb' as [Hb'|[<-|[]]].
    + apply Hout. change (retained s tied_items_1 "s21").
      assert (H21 : retained s tied_items_2 "s21").
      { apply (ties_apply s tied_items_2 "s21" b H2).
        - assert (Hc : forallb (fun b => earlier_and_tied tied_items_2 "s21" b)
                               sellers20 = true) by (vm_compute; reflexivity).
          rewrite forallb_forall in Hc. now apply Hc.
        - unfold retained. rewrite ER. exact Hb. }
      unfold retained in *. now rewrite <- ER.
    + apply Hout. exact Hb.
Qed.

(** ** RevenueByRegion reads two columns of the order items *)

Lemma order_price_columns (items1 items2 : list OrderItem.t) :
  map OrderItem.order_id items1 = map OrderItem.order_id items2 ->
  map OrderItem.price items1 = map OrderItem.price items2 ->
  order_price items1 = order_price items2.
Proof.
  revert items2. induction items1 as [|i1 items1 IH]; intros [|i2 items2];
    simpl; intros Ho Hp; try discriminate.
  - reflexivity.
  - inversion Ho as [[Ho1 Ho2]]. inversion Hp as [[Hp1 Hp2]].
    now rewrite Ho1, Hp1, (IH _ Ho2 Hp2).
Qed.

(** C10: two OrderItem frames that agree row for row on order_id and price
    give the same RevenueByRegion, whatever their product_id and seller_id
    columns hold. *)
Theorem revenue_by_region_reads_order_and_price (s : Sorter) items1 items2
    orders customers :
  map OrderItem.order_id items1 = map OrderItem.order_id items2 ->
  map OrderItem.price items1 = map OrderItem.price items2 ->
  revenue_by_region s items1 orders customers
  = revenue_by_region s items2 orders customers.
Proof.
  intros Ho Hp. unfold revenue_by_region, items_with_state.
  now rewrite (order_price_columns _ _ Ho Hp).
Qed.

Lemma revenue_by_region_reads_order_and_price_witness :
  revenue_by_region stable_sorter
    [item 1 "p" "A" 10; item 2 "q" "B" 20] sample_orders sample_customers
  = revenue_by_region stable_sorter
      [item 1 "x" "C" 10; item 2 "y" "D" 20] sample_orders sample_customers.
Proof.
  apply (revenue_by_region_reads_order_and_price stable_sorter
           [item 1 "p" "A" 10; item 2 "q" "B" 20]
           [item 1 "x" "C" 10; item 2 "y" "D" 20]); reflexivity.
Defined.

(** ** Delivery metrics *)

(** C8: DeliveryMetrics has one row per Order row, in the same order, and
    each row carries the order's delivery_delay and delay_status as they
    are: no clipping, no relabelling. *)
Theorem delivery_metrics_passthrough (orders : list Order.t) :
  List.length (delivery_metrics orders) = List.length orders /\
  map dm_delivery_delay (delivery_metrics orders) = map Order.delivery_delay orders /\
  map dm_delay_status (delivery_metrics orders) = map Order.delay_status orders.
Proof.
  unfold delivery_metrics. rewrite length_map, !map_map. simpl. auto.
Qed.

(** The clipping to [-30, 30] belongs to the delivery tab, not to the
    report: a delay of 45 days is reported as 45 and drawn as 30. *)
Lemma delivery_delay_unclipped :
  map dm_delivery_delay (delivery_metrics sample_orders) = [Some 45; Some (-3)] /\
  delay_data (delivery_metrics sample_orders) = [Some 30; Some (-3)].
Proof. split; reflexivity. Qed.

(** ** The pipeline as a whole *)

Lemma prepare_dashboard_data_reports (s : Sorter) (g : Globals) (d : Dashboard.t) :
  prepare_dashboard_data s g = Ok d ->
  Dashboard.revenue_by_category d
  = revenue_by_category s (order_items_clean g) (products_clean g)
                        (product_cat_name_clean g) /\
  Dashboard.revenue_by_region d
  = revenue_by_region s (order_items_clean g) (orders_clean g) (customers_clean g) /\
  Dashboard.revenue_by_seller d = revenue_by_seller s (order_items_clean g) /\
  Dashboard.delivery_metrics d = delivery_metrics (orders_clean g) /\
  Dashboard.satisfaction_over_time d
  = satisfaction_over_time (order_reviews_clean g) (orders_clean g) /\
  Dashboard.lead_metrics d
  = lead_metrics (qualified_leads_clean g) (closed_leads_clean g) /\
  lead_conversion_by_segment (qualified_leads_clean g) (closed_leads_clean g)
  = Ok (Dashboard.lead_conversion_by_segment d).
Proof.
  unfold prepare_dashboard_data.
  destruct (lead_conversion_by_segment _ _) as [rows|c|]; try discriminate.
  intro E. inversion E; subst; simpl. repeat split; reflexivity.
Qed.

(** ** Satisfaction over time *)

Lemma sum_bounds (lo hi : Z) (xs : list Z) :
  (forall x, In x xs -> lo <= x <= hi) ->
  lo * Z.of_nat (List.length xs) <= fold_right Z.add 0 xs
  <= hi * Z.of_nat (List.length xs).
Proof.
  induction xs as [|x xs IH]; intro H.
  - simpl. lia.
  - assert (lo <= x <= hi) by (apply H; now left).
    assert (lo * Z.of_nat (List.length xs) <= fold_right Z.add 0 xs
            <= hi * Z.of_nat (List.length xs))
      by (apply IH; intros; apply H; now right).
    cbn [List.length fold_right]. lia.
Qed.

Lemma mean_bounds (lo hi : Z) (xs : list Z) :
  xs <> [] ->
  (forall x, In x xs -> lo <= x <= hi) ->
  exists q, mean xs = Fin q /\ (inject_Z lo <= q)%Q /\ (q <= inject_Z hi)%Q.
Proof.
  intros Hne H. pose proof (sum_bounds lo hi xs H) as [Hlo Hhi].
  destruct xs as [|x xs]; [contradiction|].
  unfold mean. eexists. split; [reflexivity|].
  set (n := Z.of_nat (List.length (x :: xs))) in *.
  assert (Hn : (0 < inject_Z n)%Q).
  { change 0%Q with (inject_Z 0). rewrite <- Zlt_Qlt. subst n.
    cbn [List.length]. lia. }
  split.
  - apply Qle_shift_div_l; [exact Hn|].
    rewrite <- inject_Z_mult, <- Zle_Qle. exact Hlo.
  - apply Qle_shift_div_r; [exact Hn|].
    rewrite <- inject_Z_mult, <- Zle_Qle. exact Hhi.
Qed.

Lemma satisfaction_data_In (reviews : list OrderReview.t) (orders : list Order.t)
    (r : OrderReview.t) (o : Z * option Timestamp) :
  In (r, o) (satisfaction_data reviews orders) <->
  In r reviews /\ In o (order_timestamp orders) /\ OrderReview.order_id r = fst o.
Proof. unfold satisfaction_data. apply merge_inner_In. apply Z.eqb_eq. Qed.


Lemma sample_reviews_scores (r : OrderReview.t) :
  In r sample_reviews -> 1 <= OrderReview.review_score r <= 5.
Proof.
  intros [<-|[<-|[<-|[<-|[]]]]]; simpl; lia.
Defined.


(** ** Lead conversion *)

Lemma ratio_percentage (c t : Z) :
  0 <= c <= t -> 0 < t ->
  percentage (Qmult (Qdiv (inject_Z c) (inject_Z t)) (inject_Z 100)).
Proof.
  intros [Hc Hct] Ht.
  assert (Ht' : (0 < inject_Z t)%Q)
    by (change 0%Q with (inject_Z 0); now rewrite <- Zlt_Qlt).
  assert (H0 : (0 <= inject_Z c / inject_Z t)%Q).
  { apply Qle_shift_div_l; [exact Ht'|]. rewrite Qmult_0_l.
    change 0%Q with (inject_Z 0). now rewrite <- Zle_Qle. }
  assert (H1 : (inject_Z c / inject_Z t <= 1)%Q).
  { apply Qle_shift_div_r; [exact Ht'|]. rewrite Qmult_1_l.
    now rewrite <- Zle_Qle. }
  split.
  - apply Qmult_le_0_compat; [exact H0|]. discriminate.
  - apply Qle_trans with (1 * inject_Z 100)%Q.
    + apply Qmult_le_compat_r; [exact H1|]. discriminate.
    + rewrite Qmult_1_l. apply Qle_refl.
Qed.

Lemma count_notna_le {R A} (f : R -> option A) (rows : list R) :
  0 <= count_notna f rows <= count rows.
Proof.
  unfold count_notna, count. split; [lia|].
  apply inj_le, filter_length_le.
Qed.

Lemma count_pos {R} (rows : list R) : rows <> [] -> 0 < count rows.
Proof. destruct rows; [contradiction|]. intros _. unfold count. simpl. lia. Qed.

Lemma segment_rate_percentage (c t : Z) :
  0 <= c <= t -> 0 < t ->
  exists q, segment_rate c t = Fin q /\ percentage q.
Proof.
  intros Hc Ht. unfold segment_rate, pd_truediv.
  replace (t =? 0) with false by (symmetry; apply Z.eqb_neq; lia).
  simpl. eexists. split; [reflexivity|]. now apply ratio_percentage.
Qed.

(** What [fillna(0)] is for: 0/0 is NaN and becomes 0; a positive count
    over 0 would stay infinite. *)
Lemma segment_rate_zero_total :
  segment_rate 0 0 = Fin (inject_Z 0) /\ segment_rate 1 0 = PosInf.
Proof. split; reflexivity. Qed.

Lemma lead_metrics_zero_qualified (q : QualifiedLeads) (closed : list ClosedLead.t) :
  qualified_len q = 0 ->
  LeadMetrics.conversion_rate (lead_metrics q closed) = inject_Z 0.
Proof. intro H. unfold lead_metrics. simpl. now rewrite H. Qed.

Lemma lead_conversion_by_segment_Ok (mql_ids : list Z) (closed : list ClosedLead.t)
    (rows : list SegmentRow.t) :
  lead_conversion_by_segment (QLeads mql_ids) closed = Ok rows ->
  rows = segment_rows (groupby joined_segment (leads_joined mql_ids closed)) /\
  rows <> [].
Proof.
  unfold lead_conversion_by_segment.
  destruct (groupby joined_segment (leads_joined mql_ids closed)) as [|kg groups];
    [discriminate|].
  intro E. inversion E; subst. split; [reflexivity|discriminate].
Qed.

Lemma segment_rows_In (mql_ids : list Z) (closed : list ClosedLead.t)
    (rows : list SegmentRow.t) (row : SegmentRow.t) :
  lead_conversion_by_segment (QLeads mql_ids) closed = Ok rows ->
  In row rows ->
  exists g, g <> [] /\
            In (SegmentRow.business_segment row, g)
               (groupby joined_segment (leads_joined mql_ids closed)) /\
            SegmentRow.total_leads row = count g /\
            SegmentRow.converted_leads row = count_notna joined_won_date g /\
            SegmentRow.conversion_rate row
            = segment_rate (count_notna joined_won_date g) (count g).
Proof.
  intros E Hin. apply lead_conversion_by_segment_Ok in E. destruct E as [-> _].
  unfold segment_rows in Hin.
  apply in_map_iff in Hin. destruct Hin as ([k g] & <- & Hkg). simpl.
  exists g. split; [exact (groupby_nonempty _ _ _ Hkg)|]. auto.
Qed.

Lemma ratio_nonneg (c t : Z) :
  0 <= c -> 0 < t ->
  (0 <= Qmult (Qdiv (inject_Z c) (inject_Z t)) (inject_Z 100))%Q.
Proof.
  intros Hc Ht.
  assert (Ht' : (0 < inject_Z t)%Q)
    by (change 0%Q with (inject_Z 0); now rewrite <- Zlt_Qlt).
  apply Qmult_le_0_compat; [|discriminate].
  apply Qle_shift_div_l; [exact Ht'|]. rewrite Qmult_0_l.
  change 0%Q with (inject_Z 0). now rewrite <- Zle_Qle.
Qed.

(** C3 (as the code has it), for every input: LeadMetrics.conversion_rate
    is never negative, is 0 when there is no qualified lead, and is at most
    100 when the closed leads are no more than the qualified ones; every row
    of a LeadConversionBySegment that is produced has total_leads >= 1, so
    its division is never by zero, and a conversion_rate that is a number
    in [0,100]. *)
Theorem conversion_rates_bounded (q : QualifiedLeads) (closed : list ClosedLead.t) :
  (0 <= LeadMetrics.conversion_rate (lead_metrics q closed))%Q /\
  (qualified_len q = 0 ->
   LeadMetrics.conversion_rate (lead_metrics q closed) = inject_Z 0) /\
  (count closed <= qualified_len q ->
   percentage (LeadMetrics.conversion_rate (lead_metrics q closed))) /\
  forall rows, lead_conversion_by_segment q closed = Ok rows ->
    Forall (fun row => 0 < SegmentRow.total_leads row /\
                       exists r, SegmentRow.conversion_rate row = Fin r /\
                                 percentage r) rows.
Proof.
  split; [|split; [|split]].
  - unfold lead_metrics. simpl.
    destruct (0 <? qualified_len q) eqn:E.
    + apply Z.ltb_lt in E. apply ratio_nonneg; [apply count_nonneg|exact E].
    + discriminate.
  - apply lead_metrics_zero_qualified.
  - intro Hle. unfold lead_metrics. simpl.
    destruct (0 <? qualified_len q) eqn:E.
    + apply Z.ltb_lt in E. apply ratio_percentage; [|exact E].
      split; [apply count_nonneg|exact Hle].
    + split; discriminate.
  - intros rows E. apply Forall_forall. intros row Hrow.
    destruct q as [ids|rs]; [|discriminate].
    destruct (segment_rows_In _ _ _ _ E Hrow) as (g & Hne & _ & Ht & _ & Hr).
    rewrite Ht, Hr. split; [now apply count_pos|].
    apply segment_rate_percentage; [apply count_notna_le|now apply count_pos].
Qed.

Lemma conversion_rates_bounded_witness :
  percentage (LeadMetrics.conversion_rate (lead_metrics (QLeads [1; 2]) one_closed_lead)) /\
  Forall (fun row => 0 < SegmentRow.total_leads row /\
                     exists r, SegmentRow.conversion_rate row = Fin r /\
                               percentage r)
         (segment_rows (groupby joined_segment (leads_joined [1; 2] one_closed_lead))).
Proof.
  split.
  - apply (proj1 (proj2 (proj2
             (conversion_rates_bounded (QLeads [1; 2]) one_closed_lead)))).
    vm_compute. discriminate.
  - apply (proj2 (proj2 (proj2
             (conversion_rates_bounded (QLeads [1; 2]) one_closed_lead)))).
    reflexivity.
Defined.

(** C3 as stated fails: with one qualified lead and two closed deals
    LeadMetrics.conversion_rate is 200. *)
Lemma lead_metrics_rate_above_100 :
  Qeq (LeadMetrics.conversion_rate (lead_metrics (QLeads [1]) two_closed_leads))
      (inject_Z 200) /\
  ~ percentage (LeadMetrics.conversion_rate (lead_metrics (QLeads [1]) two_closed_leads)).
Proof.
  split; [reflexivity|]. intros [_ H]. vm_compute in H. now apply H.
Qed.

(** C2, the lead example run on the code.  With the segment column the
    example gives the qualified leads, the report is not produced: the
    merged frame has no column [business_segment].  Without that column,
    lead 2, which has no closed deal, has no segment after the merge and is
    in no group: segment "X" gets total_leads 1 and a rate of 100, where the
    example expects 2 and 50. *)
Theorem lead_example_on_the_code :
  lead_conversion_by_segment example_qualified_with_segment one_closed_lead
  = KeyError "business_segment" /\
  lead_conversion_by_segment (QLeads [1; 2]) one_closed_lead
  = Ok [{| SegmentRow.business_segment := "X";
           SegmentRow.total_leads := 1;
           SegmentRow.converted_leads := 1;
           SegmentRow.conversion_rate := Fin (100 # 1) |}] /\
  leads_joined [1; 2] one_closed_lead
  = [(1, nth_error one_closed_lead 0); (2, None)].
Proof. repeat split; reflexivity. Qed.

(** ** Aggregates against their source tables *)

Lemma bounded_revenue_weaken (rows : list RevenueRow) (t c t' c' : Z) :
  bounded_revenue rows t c -> t <= t' -> c <= c' -> bounded_revenue rows t' c'.
Proof.
  intros (H1 & H2 & H3) Ht Hc. repeat split; try lia.
  eapply Forall_impl; [|exact H3]. simpl. intros; lia.
Qed.

Lemma bounded_revenue_of_sums (rows : list RevenueRow) (t c : Z) :
  Forall (fun row => 0 <= total_revenue row /\ 0 <= order_count row) rows ->
  col_sum total_revenue rows <= t ->
  col_sum order_count rows <= c ->
  bounded_revenue rows t c.
Proof.
  intros Hnn Ht Hc. rewrite Forall_forall in Hnn.
  repeat split; try assumption.
  apply Forall_forall. intros row Hrow.
  assert (total_revenue row <= col_sum total_revenue rows)
    by (apply col_sum_member; [intros; now apply Hnn|exact Hrow]).
  assert (order_count row <= col_sum order_count rows)
    by (apply col_sum_member; [intros; now apply Hnn|exact Hrow]).
  destruct (Hnn row Hrow). lia.
Qed.

Lemma bounded_revenue_perm (rows rows' : list RevenueRow) (t c : Z) :
  Permutation rows rows' -> bounded_revenue rows t c -> bounded_revenue rows' t c.
Proof.
  intros Hp (H1 & H2 & H3). repeat split.
  - now rewrite <- (col_sum_perm _ _ _ Hp).
  - now rewrite <- (col_sum_perm _ _ _ Hp).
  - rewrite Forall_forall in *. intros row Hrow. apply H3.
    eapply Permutation_in; [apply Permutation_sym|]; eassumption.
Qed.

Lemma bounded_revenue_head (n : nat) (rows : list RevenueRow) (t c : Z) :
  bounded_revenue rows t c -> bounded_revenue (head n rows) t c.
Proof.
  intros (H1 & H2 & H3). unfold head. rewrite Forall_forall in H3.
  assert (Hin : forall row, In row (firstn n rows) -> In row rows).
  { intros row Hrow. rewrite <- (firstn_skipn n rows). apply in_or_app. now left. }
  repeat split.
  - etransitivity; [apply col_sum_firstn|exact H1]. intros; now apply H3.
  - etransitivity; [apply col_sum_firstn|exact H2]. intros; now apply H3.
  - apply Forall_forall. intros row Hrow. now apply H3, Hin.
Qed.

Lemma filter_keyed_all {K R} (key : R -> K) (rows : list R) :
  filter (keyed (fun r => Some (key r))) rows = rows.
Proof.
  induction rows as [|r rows IH]; [reflexivity|]. simpl. now rewrite IH.
Qed.

(** A grouped revenue frame splits the price sum and the row count of the
    frame it groups. *)
Lemma agg_revenue_sums {R} (key : R -> string) (price : R -> Z) (rows : list R) :
  col_sum total_revenue (agg_revenue price (groupby (fun r => Some (key r)) rows))
  = col_sum price rows /\
  col_sum order_count (agg_revenue price (groupby (fun r => Some (key r)) rows))
  = count rows.
Proof.
  unfold agg_revenue. rewrite !col_sum_map. simpl. split.
  - now rewrite groupby_sum, filter_keyed_all.
  - rewrite (col_sum_ext _ (fun kg => col_sum (fun _ => 1) (snd kg)))
      by (intros; apply count_as_sum).
    now rewrite groupby_sum, filter_keyed_all, count_as_sum.
Qed.

Lemma agg_revenue_bounded {R} (key : R -> string) (price : R -> Z) (rows : list R) :
  (forall r, In r rows -> 0 <= price r) ->
  bounded_revenue (agg_revenue price (groupby (fun r => Some (key r)) rows))
                  (col_sum price rows) (count rows).
Proof.
  intro Hnn. destruct (agg_revenue_sums key price rows) as [Ht Hc].
  apply bounded_revenue_of_sums; try lia.
  apply Forall_forall. intros row Hrow. apply agg_revenue_In in Hrow.
  destruct Hrow as (kg & Hkg & ->). simpl. split; [|apply count_nonneg].
  apply col_sum_nonneg. intros r Hr. apply Hnn.
  apply groupby_In in Hkg. destruct Hkg as [_ Hg]. rewrite Hg in Hr.
  now apply filter_In in Hr.
Qed.

Lemma merge_inner_fst_In {L R J} (eqb : J -> J -> bool) (kl : L -> J) (kr : R -> J)
    (left : list L) (right : list R) (p : L * R) :
  In p (merge_inner eqb kl kr left right) -> In (fst p) left.
Proof.
  unfold merge_inner. rewrite in_flat_map. intros (l & Hl & Hp).
  apply in_map_iff in Hp. destruct Hp as (r & <- & _). exact Hl.
Qed.

Lemma revenue_by_category_bounded (s : Sorter) items products translation :
  (forall i, In i items -> 0 <= OrderItem.price i) ->
  NoDup (map Product.product_id products) ->
  NoDup (map Translation.product_category_name translation) ->
  bounded_revenue (revenue_by_category s items products translation)
                  (col_sum OrderItem.price items) (count items).
Proof.
  intros Hnn Hp Ht. unfold revenue_by_category.
  eapply bounded_revenue_perm; [apply sort_desc_perm|].
  set (joined := items_with_category items products translation).
  assert (Hin : forall r, In r joined -> In (fst (fst r)) items).
  { intros r Hr. unfold joined, items_with_category in Hr.
    apply merge_inner_fst_In in Hr. now apply merge_inner_fst_In in Hr. }
  eapply bounded_revenue_weaken.
  - apply agg_revenue_bounded. intros r Hr. now apply Hnn, Hin.
  - unfold joined, items_with_category.
    etransitivity;
      [apply (col_sum_merge_inner_le String.eqb _ _ String.eqb_eq
                (fun ip => OrderItem.price (fst ip))); [exact Ht|]|].
    + intros ip Hip. apply Hnn. now apply merge_inner_fst_In in Hip.
    + now apply (col_sum_merge_inner_le String.eqb _ _ String.eqb_eq).
  - unfold joined, items_with_category.
    etransitivity; [apply (count_merge_inner_le String.eqb _ _ String.eqb_eq);
                    exact Ht|].
    now apply (count_merge_inner_le String.eqb _ _ String.eqb_eq).
Qed.

Lemma revenue_by_region_bounded (s : Sorter) items orders customers :
  (forall i, In i items -> 0 <= OrderItem.price i) ->
  NoDup (map Order.order_id orders) ->
  NoDup (map Customer.customer_id customers) ->
  bounded_revenue (revenue_by_region s items orders customers)
                  (col_sum OrderItem.price items) (count items).
Proof.
  intros Hnn Ho Hc. unfold revenue_by_region.
  eapply bounded_revenue_perm; [apply sort_desc_perm|].
  set (joined := items_with_state items orders customers).
  assert (Ho' : NoDup (map fst (order_customer orders)))
    by (unfold order_customer; now rewrite map_map).
  assert (Hprice : forall op, In op (order_price items) -> 0 <= snd op).
  { intros op Hop. apply in_map_iff in Hop. destruct Hop as (i & <- & Hi).
    now apply Hnn. }
  assert (Hin : forall r, In r joined -> In (fst (fst r)) (order_price items)).
  { intros r Hr. unfold joined, items_with_state in Hr.
    apply merge_inner_fst_In in Hr. now apply merge_inner_fst_In in Hr. }
  assert (Esum : col_sum snd (order_price items) = col_sum OrderItem.price items)
    by (unfold order_price; now rewrite col_sum_map).
  assert (Ecnt : count (order_price items) = count items)
    by (unfold order_price, count; now rewrite length_map).
  eapply bounded_revenue_weaken.
  - apply agg_revenue_bounded. intros r Hr. now apply Hprice, Hin.
  - rewrite <- Esum. unfold joined, items_with_state.
    etransitivity;
      [apply (col_sum_merge_inner_le String.eqb _ _ String.eqb_eq
                (fun io => snd (fst io))); [exact Hc|]|].
    + intros io Hio. apply Hprice. now apply merge_inner_fst_In in Hio.
    + now apply (col_sum_merge_inner_le Z.eqb _ _ Z.eqb_eq).
  - rewrite <- Ecnt. unfold joined, items_with_state.
    etransitivity; [apply (count_merge_inner_le String.eqb _ _ String.eqb_eq);
                    exact Hc|].
    now apply (count_merge_inner_le Z.eqb _ _ Z.eqb_eq).
Qed.

Lemma revenue_by_seller_bounded (s : Sorter) items :
  (forall i, In i items -> 0 <= OrderItem.price i) ->
  bounded_revenue (revenue_by_seller s items)
                  (col_sum OrderItem.price items) (count items).
Proof.
  intro Hnn. unfold revenue_by_seller. apply bounded_revenue_head.
  eapply bounded_revenue_perm; [apply sort_desc_perm|].
  now apply agg_revenue_bounded.
Qed.

Lemma satisfaction_counts_bounded (reviews : list OrderReview.t) (orders : list Order.t) :
  NoDup (map Order.order_id orders) ->
  col_sum review_count (satisfaction_over_time reviews orders) <= count reviews /\
  Forall (fun row => 0 <= review_count row <= count reviews)
         (satisfaction_over_time reviews orders).
Proof.
  intro Ho.
  assert (Ho' : NoDup (map fst (order_timestamp orders)))
    by (unfold order_timestamp; now rewrite map_map).
  assert (Hsum : col_sum review_count (satisfaction_over_time reviews orders)
                 <= count reviews).
  { unfold satisfaction_over_time, satisfaction_by_period.
    rewrite !col_sum_map. simpl.
    rewrite (col_sum_ext _ (fun kg => col_sum (fun _ => 1) (snd kg)))
      by (intros; apply count_as_sum).
    rewrite groupby_sum.
    etransitivity; [apply col_sum_filter_le; intros; lia|].
    rewrite <- count_as_sum. unfold satisfaction_data.
    now apply (count_merge_inner_le Z.eqb _ _ Z.eqb_eq). }
  split; [exact Hsum|].
  assert (Hnn : forall row, In row (satisfaction_over_time reviews orders) ->
                            0 <= review_count row).
  { intros row Hrow. unfold satisfaction_over_time, satisfaction_by_period in Hrow.
    rewrite map_map in Hrow. apply in_map_iff in Hrow.
    destruct Hrow as (kg & <- & _). simpl. apply count_nonneg. }
  apply Forall_forall. intros row Hrow. split; [now apply Hnn|].
  etransitivity; [|exact Hsum]. now apply col_sum_member.
Qed.

Lemma segment_counts_bounded (mql_ids : list Z) (closed : list ClosedLead.t)
    (rows : list SegmentRow.t) :
  NoDup (map ClosedLead.mql_id closed) ->
  lead_conversion_by_segment (QLeads mql_ids) closed = Ok rows ->
  col_sum SegmentRow.total_leads rows <= count mql_ids /\
  col_sum SegmentRow.converted_leads rows <= count mql_ids /\
  Forall (fun row => 0 <= SegmentRow.converted_leads row
                     <= SegmentRow.total_leads row /\
                     SegmentRow.total_leads row <= count mql_ids) rows.
Proof.
  intros Hc E.
  assert (Hconv : forall row, In row rows ->
            0 <= SegmentRow.converted_leads row <= SegmentRow.total_leads row).
  { intros row Hrow.
    destruct (segment_rows_In _ _ _ _ E Hrow) as (g & _ & _ & -> & -> & _).
    apply count_notna_le. }
  assert (Htot : col_sum SegmentRow.total_leads rows <= count mql_ids).
  { apply lead_conversion_by_segment_Ok in E. destruct E as [-> _]. clear Hconv.
    unfold segment_rows. rewrite col_sum_map. simpl.
    rewrite (col_sum_ext _ (fun kg => col_sum (fun _ => 1) (snd kg)))
      by (intros; apply count_as_sum).
    rewrite groupby_sum.
    etransitivity; [apply col_sum_filter_le; intros; lia|].
    rewrite <- count_as_sum. unfold count, leads_joined.
    rewrite <- (length_map fst), (merge_left_fst Z.eqb _ _ Z.eqb_eq); [lia|exact Hc]. }
  assert (Hle : col_sum SegmentRow.converted_leads rows
                <= col_sum SegmentRow.total_leads rows).
  { clear Htot E. induction rows as [|row rows IH]; [reflexivity|].
    rewrite !col_sum_cons.
    assert (0 <= SegmentRow.converted_leads row <= SegmentRow.total_leads row)
      by (apply Hconv; now left).
    assert (col_sum SegmentRow.converted_leads rows
            <= col_sum SegmentRow.total_leads rows)
      by (apply IH; intros; apply Hconv; now right).
    lia. }
  split; [exact Htot|]. split; [lia|].
  apply Forall_forall. intros row Hrow. split; [now apply Hconv|].
  etransitivity; [|exact Htot]. apply col_sum_member; [|exact Hrow].
  intros y Hy. specialize (Hconv y Hy). lia.
Qed.

(** Counting the pairs of a merge from the right-hand side. *)
Section MergeCount.

Context {L R J : Type}.
Variable eqb : J -> J -> bool.
Variables (kl : L -> J) (kr : R -> J).
Hypothesis eqb_eq : forall a b, eqb a b = true <-> a = b.

Lemma key_holders_unique (j : J) (left : list L) :
  NoDup (map kl left) ->
  col_sum (fun l => if eqb (kl l) j then 1 else 0) left <= 1.
Proof.
  induction left as [|l left IH]; simpl; intro Hnd; [unfold col_sum; simpl; lia|].
  inversion Hnd as [|? ? Hnot Hnd']; subst. rewrite col_sum_cons.
  specialize (IH Hnd'). destruct (eqb (kl l) j) eqn:E; [|lia].
  apply eqb_eq in E.
  rewrite (col_sum_ext _ (fun _ => 0)), col_sum_const_0; [lia|].
  intros x Hx. destruct (eqb (kl x) j) eqn:E'; [|reflexivity].
  apply eqb_eq in E'. exfalso. apply Hnot. rewrite E, <- E'. now apply in_map.
Qed.

Lemma matches_total_le (left : list L) (right : list R) :
  NoDup (map kl left) ->
  col_sum (fun l => count (matches eqb kl kr l right)) left <= count right.
Proof.
  intro Hnd. induction right as [|r right IH].
  - simpl. rewrite (col_sum_ext _ (fun _ => 0)), col_sum_const_0; [reflexivity|].
    reflexivity.
  - rewrite (col_sum_ext _ (fun l => (if eqb (kl l) (kr r) then 1 else 0)
                                     + count (matches eqb kl kr l right))).
    + rewrite col_sum_plus.
      pose proof (key_holders_unique (kr r) left Hnd).
      unfold count in *. cbn [List.length]. lia.
    + intros l _. unfold matches, count. simpl.
      destruct (eqb (kl l) (kr r)); cbn [List.length]; lia.
Qed.

Lemma merge_left_partners (left : list L) (right : list R) :
  count (filter has_partner (merge_left eqb kl kr left right))
  = col_sum (fun l => count (matches eqb kl kr l right)) left.
Proof.
  induction left as [|l left IH]; [reflexivity|].
  rewrite merge_left_cons, filter_app, col_sum_cons, <- IH.
  unfold count. rewrite length_app, Nat2Z.inj_add. f_equal. f_equal.
  destruct (matches eqb kl kr l right) as [|r ms]; [reflexivity|].
  generalize (r :: ms). intro rs.
  induction rs as [|r' rs IHrs]; [reflexivity|].
  simpl. now rewrite IHrs.
Qed.

End MergeCount.

Lemma count_notna_as_sum {R A} (f : R -> option A) (rows : list R) :
  count_notna f rows
  = col_sum (fun r => match f r with Some _ => 1 | None => 0 end) rows.
Proof.
  unfold count_notna. induction rows as [|r rows IH]; [reflexivity|].
  rewrite col_sum_cons, <- IH. simpl. destruct (f r); cbn [List.length]; lia.
Qed.

Lemma col_sum_le {R} (f g : R -> Z) (l : list R) :
  (forall x, In x l -> f x <= g x) -> col_sum f l <= col_sum g l.
Proof.
  induction l as [|x l IH]; intro H; [reflexivity|]. rewrite !col_sum_cons.
  assert (f x <= g x) by (apply H; now left).
  assert (col_sum f l <= col_sum g l) by (apply IH; intros; apply H; now right).
  lia.
Qed.

Lemma converted_within_closed (mql_ids : list Z) (closed : list ClosedLead.t)
    (rows : list SegmentRow.t) :
  NoDup mql_ids ->
  lead_conversion_by_segment (QLeads mql_ids) closed = Ok rows ->
  col_sum SegmentRow.converted_leads rows <= count closed.
Proof.
  intros Hq E. apply lead_conversion_by_segment_Ok in E. destruct E as [-> _].
  unfold segment_rows. rewrite col_sum_map. simpl.
  rewrite (col_sum_ext _
             (fun kg => col_sum (fun r => match joined_won_date r with
                                          | Some _ => 1 | None => 0 end) (snd kg)))
    by (intros; apply count_notna_as_sum).
  rewrite groupby_sum.
  etransitivity; [apply col_sum_filter_le; intros y _; destruct (joined_won_date y); lia|].
  etransitivity;
    [apply (col_sum_le _ (fun r => if has_partner r then 1 else 0))|].
  - intros [m o] _. unfold joined_won_date, has_partner. simpl.
    destruct o as [c|]; [destruct (ClosedLead.won_date c)|]; lia.
  - assert (Ef : forall l : list (Z * option ClosedLead.t),
               col_sum (fun r => if has_partner r then 1 else 0) l
               = count (filter has_partner l)).
    { intro l. unfold count. induction l as [|x l IH]; [reflexivity|].
      rewrite col_sum_cons, IH. simpl. destruct (has_partner x);
        cbn [List.length]; lia. }
    rewrite Ef. unfold leads_joined. rewrite merge_left_partners.
    apply (matches_total_le Z.eqb _ _ Z.eqb_eq). now rewrite map_id.
Qed.

Lemma qualified_len_ids (q : QualifiedLeads) :
  qualified_len q = count (qualified_ids q).
Proof.
  destruct q as [ids|rows]; simpl; [reflexivity|].
  unfold count. now rewrite length_map.
Qed.

(** C7 (as the code has it): with non-negative prices and every join key
    identifying one row of its table (product_id in Product, the category
    name in the translation, order_id in Order, customer_id in Customer,
    mql_id in the qualified and in the closed leads), no count of a report
    exceeds the row count of its source table and no revenue exceeds the
    price sum of OrderItem, row by row and summed over the report. *)
Theorem aggregates_within_sources (s : Sorter) (g : Globals) :
  nonneg_prices g ->
  unique_keys g ->
  let items := order_items_clean g in
  let all_revenue := col_sum OrderItem.price items in
  bounded_revenue (revenue_by_category s items (products_clean g)
                     (product_cat_name_clean g)) all_revenue (count items) /\
  bounded_revenue (revenue_by_region s items (orders_clean g) (customers_clean g))
                  all_revenue (count items) /\
  bounded_revenue (revenue_by_seller s items) all_revenue (count items) /\
  count (delivery_metrics (orders_clean g)) = count (orders_clean g) /\
  (col_sum review_count
     (satisfaction_over_time (order_reviews_clean g) (orders_clean g))
   <= count (order_reviews_clean g) /\
   Forall (fun row => 0 <= review_count row <= count (order_reviews_clean g))
          (satisfaction_over_time (order_reviews_clean g) (orders_clean g))) /\
  (LeadMetrics.total_qualified_leads
     (lead_metrics (qualified_leads_clean g) (closed_leads_clean g))
   = qualified_len (qualified_leads_clean g) /\
   LeadMetrics.total_closed_leads
     (lead_metrics (qualified_leads_clean g) (closed_leads_clean g))
   = count (closed_leads_clean g)) /\
  forall rows,
    lead_conversion_by_segment (qualified_leads_clean g) (closed_leads_clean g)
    = Ok rows ->
    col_sum SegmentRow.total_leads rows <= qualified_len (qualified_leads_clean g) /\
    col_sum SegmentRow.converted_leads rows <= count (closed_leads_clean g) /\
    Forall (fun row => 0 <= SegmentRow.converted_leads row
                       <= SegmentRow.total_leads row /\
                       SegmentRow.total_leads row
                       <= qualified_len (qualified_leads_clean g)) rows.
Proof.
  intros Hnn (Hp & Ht & Ho & Hc & Hq & Hcl) items all_revenue.
  split; [now apply revenue_by_category_bounded|].
  split; [now apply revenue_by_region_bounded|].
  split; [now apply revenue_by_seller_bounded|].
  split; [unfold delivery_metrics, count; now rewrite length_map|].
  split; [now apply satisfaction_counts_bounded|].
  split; [split; reflexivity|].
  intros rows E.
  destruct (qualified_leads_clean g) as [ids|rs] eqn:Eq; [|discriminate].
  simpl in Hq. change (qualified_len (QLeads ids)) with (count ids).
  destruct (segment_counts_bounded _ _ _ Hcl E) as (H1 & _ & H3).
  split; [exact H1|]. split; [|exact H3].
  now apply (converted_within_closed ids).
Qed.

Lemma sample_globals_keys : unique_keys sample_globals.
Proof.
  unfold unique_keys. simpl.
  repeat split;
    repeat (constructor; [simpl; intuition (try discriminate; try lia)|]);
    constructor.
Qed.

Lemma sample_globals_prices : nonneg_prices sample_globals.
Proof.
  intros i [<-|[<-|[]]]; simpl; lia.
Qed.

Lemma aggregates_within_sources_witness :
  bounded_revenue
    (revenue_by_category stable_sorter two_items_one_order one_product one_translation)
    30 2.
Proof.
  exact (proj1 (aggregates_within_sources stable_sorter sample_globals
                  sample_globals_prices sample_globals_keys)).
Defined.

(** C7 as stated fails: when the product frame lists a product twice, the
    merge pairs its order item with both rows; one item of price 10 is
    reported with total_revenue 20 and order_count 2. *)
Lemma duplicate_key_inflates_revenue :
  (forall i, In i [item 1 "p" "A" 10] -> 0 <= OrderItem.price i) /\
  revenue_by_category stable_sorter [item 1 "p" "A" 10] duplicated_product
                      one_translation
  = [{| label := "bed"; total_revenue := 20; order_count := 2 |}] /\
  col_sum OrderItem.price [item 1 "p" "A" 10] = 10 /\
  count [item 1 "p" "A" 10] = 1.
Proof.
  split; [intros i [<-|[]]; simpl; lia|]. repeat split; reflexivity.
Qed.

(** ** Month labels *)

Lemma label_ltb_klt (a b : string) : label_ltb a b = true -> klt a b.
Proof.
  unfold label_ltb, klt. change (kcmp a b) with (String.compare a b).
  generalize (String.compare a b). intros [| |]; intro H;
    [discriminate H|reflexivity|discriminate H].
Qed.

Lemma labels_ascend_from_S (n : nat) (p : Z) :
  labels_ascend_from (S n) p
  = label_ltb (period_str p) (period_str (p + 1)) && labels_ascend_from n (p + 1).
Proof. reflexivity. Qed.

Lemma labels_ascend_from_step (n : nat) (p : Z) :
  labels_ascend_from n p = true ->
  forall k : nat, (k < n)%nat ->
    klt (period_str (p + Z.of_nat k)) (period_str (p + Z.of_nat k + 1)).
Proof.
  revert p. induction n as [|n IH]; intros p H k Hk; [lia|].
  rewrite labels_ascend_from_S in H. apply andb_true_iff in H.
  destruct H as [H0 Hrest]. destruct k as [|k].
  - change (Z.of_nat 0) with 0. rewrite Z.add_0_r. now apply label_ltb_klt.
  - replace (p + Z.of_nat (S k)) with (p + 1 + Z.of_nat k) by lia.
    apply IH; [exact Hrest|lia].
Qed.

Lemma labels_ascend_in_range :
  labels_ascend_from (Z.to_nat (period_max - period_min)) period_min = true.
Proof. vm_compute. reflexivity. Qed.

Lemma period_str_step (p : Z) :
  period_min <= p < period_max -> klt (period_str p) (period_str (p + 1)).
Proof.
  intro Hp.
  pose proof (labels_ascend_from_step _ _ labels_ascend_in_range
                (Z.to_nat (p - period_min))) as H.
  replace (period_min + Z.of_nat (Z.to_nat (p - period_min))) with p in H by lia.
  apply H. lia.
Qed.

Lemma period_str_increasing (p q : Z) :
  period_min <= p -> p < q -> q <= period_max ->
  klt (period_str p) (period_str q).
Proof.
  intros Hp Hpq Hq.
  replace q with (p + 1 + Z.of_nat (Z.to_nat (q - p - 1))) in * by lia.
  generalize dependent (Z.to_nat (q - p - 1)). intro k.
  induction k as [|k IH]; intros Hpq Hq.
  - rewrite Z.add_0_r. apply period_str_step. lia.
  - apply klt_trans with (period_str (p + 1 + Z.of_nat k)).
    + apply IH; lia.
    + replace (p + 1 + Z.of_nat (S k)) with (p + 1 + Z.of_nat k + 1) by lia.
      apply period_str_step. lia.
Qed.

Lemma to_period_M_range (t : Timestamp) :
  valid_timestamp t -> period_min <= to_period_M t <= period_max.
Proof.
  unfold valid_timestamp, to_period_M, period_min, period_max. lia.
Qed.

Lemma StronglySorted_map_within {A B} (P : A -> A -> Prop) (Q : B -> B -> Prop)
    (f : A -> B) (l : list A) :
  (forall a b, In a l -> In b l -> P a b -> Q (f a) (f b)) ->
  StronglySorted P l -> StronglySorted Q (map f l).
Proof.
  intros Hf Hs. induction Hs as [|a l Hl IH Ha]; simpl; constructor.
  - apply IH. intros x y Hx Hy. apply Hf; now right.
  - rewrite Forall_forall in *. intros y Hy. apply in_map_iff in Hy.
    destruct Hy as (b & <- & Hb). apply Hf; [now left|now right|now apply Ha].
Qed.

Lemma satisfaction_months_keys (reviews : list OrderReview.t) (orders : list Order.t) :
  map (fun row : Z * pdfloat * Z => fst (fst row))
      (satisfaction_by_period reviews orders)
  = group_keys (dropna order_month_of (satisfaction_data reviews orders)).
Proof.
  unfold satisfaction_by_period. rewrite map_map. cbn [fst].
  apply groupby_keys.
Qed.

(** The labels of SatisfactionOverTime are in strictly ascending order as
    strings too, so sorting the report by label keeps it chronological. *)
Lemma satisfaction_labels_increasing (reviews : list OrderReview.t)
    (orders : list Order.t) :
  (forall o t, In o orders -> Order.order_purchase_timestamp o = Some t ->
               valid_timestamp t) ->
  StronglySorted klt (map order_month (satisfaction_over_time reviews orders)).
Proof.
  intro Hvalid.
  replace (map order_month (satisfaction_over_time reviews orders))
    with (map period_str
              (group_keys (dropna order_month_of (satisfaction_data reviews orders)))).
  - apply (StronglySorted_map_within (@klt Z _)); [|apply group_keys_sorted].
    assert (Hin : forall p,
               In p (group_keys (dropna order_month_of
                                        (satisfaction_data reviews orders))) ->
               period_min <= p <= period_max).
    { intros p Hp. apply group_keys_In, dropna_In in Hp.
      destruct Hp as ([r [oid ts]] & Hrow & Hmonth).
      apply satisfaction_data_In in Hrow. destruct Hrow as (_ & Ho & _).
      unfold order_timestamp in Ho. apply in_map_iff in Ho.
      destruct Ho as (o & Eo & Ho). inversion Eo; subst.
      unfold order_month_of in Hmonth. cbn [snd] in Hmonth.
      destruct (Order.order_purchase_timestamp o) as [t|] eqn:Et; [|discriminate].
      inversion Hmonth; subst. apply to_period_M_range. now apply (Hvalid o). }
    intros a b Ha Hb Hab.
    apply period_str_increasing; [apply Hin, Ha|exact Hab|apply Hin, Hb].
  - rewrite <- satisfaction_months_keys. unfold satisfaction_over_time.
    now rewrite !map_map.
Qed.

(** ** Outcome of the pipeline *)

(** The pipeline returns its seven reports when the qualified leads have no
    segment column of their own and some lead has a closed deal with a
    segment; it raises otherwise. *)
Lemma prepare_dashboard_data_returns (s : Sorter) (g : Globals) (ids : list Z) :
  qualified_leads_clean g = QLeads ids ->
  groupby joined_segment (leads_joined ids (closed_leads_clean g)) <> [] ->
  exists d, prepare_dashboard_data s g = Ok d.
Proof.
  intros E Hne. unfold prepare_dashboard_data, lead_conversion_by_segment.
  rewrite E.
  destruct (groupby joined_segment (leads_joined ids (closed_leads_clean g)));
    [contradiction|]. eexists. reflexivity.
Qed.

Lemma prepare_dashboard_data_no_group (s : Sorter) (g : Globals) (ids : list Z) :
  qualified_leads_clean g = QLeads ids ->
  groupby joined_segment (leads_joined ids (closed_leads_clean g)) = [] ->
  prepare_dashboard_data s g = TypeError.
Proof.
  intros E Hnone. unfold prepare_dashboard_data, lead_conversion_by_segment.
  now rewrite E, Hnone.
Qed.

Lemma prepare_dashboard_data_raises (s : Sorter) (g : Globals) rows :
  qualified_leads_clean g = QLeadsWithSegment rows ->
  prepare_dashboard_data s g = KeyError "business_segment".
Proof.
  intro E. unfold prepare_dashboard_data. now rewrite E.
Qed.

(** * Further properties of the pipeline *)

(** ** What RevenueBySeller keeps *)

Lemma StronglySorted_app_cross {A} (P : A -> A -> Prop) (l1 l2 : list A) :
  StronglySorted P (l1 ++ l2) ->
  forall a b, In a l1 -> In b l2 -> P a b.
Proof.
  induction l1 as [|x l1 IH]; simpl; intros Hs a b Ha Hb; [destruct Ha|].
  inversion Hs as [|? ? Hs' Hx]; subst. destruct Ha as [<-|Ha].
  - rewrite Forall_forall in Hx. apply Hx. apply in_or_app. now right.
  - now apply IH.
Qed.

Lemma In_firstn_or_skipn {A} (n : nat) (l : list A) (x : A) :
  In x l -> In x (firstn n l) \/ In x (skipn n l).
Proof.
  intro H. rewrite <- (firstn_skipn n l) in H. now apply in_app_or in H.
Qed.

(** X1: the truncation keeps the largest totals.  A seller left out of
    RevenueBySeller has a total no greater than that of any seller in it. *)
Theorem revenue_by_seller_keeps_largest (s : Sorter) items kept dropped :
  In kept (revenue_by_seller s items) ->
  In dropped (seller_totals items) ->
  ~ In dropped (revenue_by_seller s items) ->
  total_revenue dropped <= total_revenue kept.
Proof.
  unfold revenue_by_seller, head. intros Hk Hd Hnot.
  apply (sort_desc_In s total_revenue) in Hd.
  destruct (In_firstn_or_skipn 20 _ _ Hd) as [Hd'|Hd']; [contradiction|].
  pose proof (sort_desc_sorted s _ total_revenue (seller_totals items)) as Hs.
  rewrite <- (firstn_skipn 20 (sort_desc s total_revenue (seller_totals items))) in Hs.
  exact (StronglySorted_app_cross _ _ _ Hs kept dropped Hk Hd').
Qed.

Lemma revenue_by_seller_keeps_largest_witness :
  total_revenue {| label := "s21"; total_revenue := 5; order_count := 1 |}
  <= total_revenue {| label := "s01"; total_revenue := 10; order_count := 1 |}.
Proof.
  apply (revenue_by_seller_keeps_largest stable_sorter ranked_items).
  - vm_compute. now left.
  - vm_compute. do 20 right. now left.
  - intro H. vm_compute in H.
    repeat (destruct H as [H|H]; [discriminate H|]). exact H.
Defined.

Lemma sort_desc_nil (s : Sorter) {R} (f : R -> Z) : sort_desc s f [] = [].
Proof. apply Permutation_nil, sort_desc_perm. Qed.

(** X2: with at most twenty sellers nothing is cut: RevenueBySeller is the
    frame of seller totals rearranged. *)
Theorem revenue_by_seller_complete (s : Sorter) items :
  (List.length (seller_totals items) <= 20)%nat ->
  Permutation (seller_totals items) (revenue_by_seller s items).
Proof.
  intro Hlen. unfold revenue_by_seller, head.
  rewrite firstn_all2; [apply sort_desc_perm|].
  now rewrite <- (Permutation_length (sort_desc_perm s _ total_revenue _)).
Qed.

Lemma revenue_by_seller_complete_witness :
  Permutation (seller_totals two_items_one_order)
              (revenue_by_seller stable_sorter two_items_one_order).
Proof.
  apply (revenue_by_seller_complete stable_sorter two_items_one_order).
  vm_compute. lia.
Defined.

Lemma NoDup_firstn {A} (n : nat) (l : list A) : NoDup l -> NoDup (firstn n l).
Proof.
  intro H. revert n. induction H as [|x l Hx Hl IH]; intro n.
  - rewrite firstn_nil. constructor.
  - destruct n as [|n]; simpl; constructor; [|apply IH].
    intro Hin. apply Hx. rewrite <- (firstn_skipn n l). apply in_or_app. now left.
Qed.

Lemma agg_revenue_labels {R} (price : R -> Z) (groups : list (string * list R)) :
  map label (agg_revenue price groups) = map fst groups.
Proof. unfold agg_revenue. rewrite map_map. reflexivity. Qed.

(** Labels of a sorted grouped revenue frame: one row per group key. *)
Lemma grouped_revenue_labels_NoDup {R} (s : Sorter) (key : R -> option string)
    (price : R -> Z) (rows : list R) :
  NoDup (map label (sort_desc s total_revenue
                      (agg_revenue price (groupby key rows)))).
Proof.
  eapply Permutation_NoDup.
  - apply Permutation_map, sort_desc_perm.
  - rewrite agg_revenue_labels, groupby_keys. apply group_keys_NoDup.
Qed.

(** X3: every row of RevenueBySeller is a seller of OrderItem with the sum
    of the prices of its items and the number of its item rows, and no
    seller has two rows. *)
Theorem revenue_by_seller_rows (s : Sorter) items row :
  In row (revenue_by_seller s items) ->
  (exists i, In i items /\ OrderItem.seller_id i = label row) /\
  total_revenue row = seller_total (label row) items /\
  order_count row
  = count (filter (fun i => String.eqb (OrderItem.seller_id i) (label row)) items) /\
  NoDup (map label (revenue_by_seller s items)).
Proof.
  unfold revenue_by_seller, head. intro Hin.
  assert (Hin' : In row (sort_desc s total_revenue (seller_totals items))).
  { rewrite <- (firstn_skipn 20 (sort_desc s total_revenue (seller_totals items))).
    apply in_or_app. now left. }
  destruct (grouped_revenue_row s OrderItem.seller_id OrderItem.price items row Hin')
    as (Hne & Ht & Hc).
  split; [|split; [exact Ht|split; [exact Hc|]]].
  - destruct (filter (fun r => String.eqb (OrderItem.seller_id r) (label row)) items)
      as [|i rest] eqn:E; [contradiction|].
    assert (Hi : In i (filter (fun r => String.eqb (OrderItem.seller_id r) (label row))
                              items)) by (rewrite E; now left).
    apply filter_In in Hi. destruct Hi as [Hi Heq]. apply String.eqb_eq in Heq.
    now exists i.
  - rewrite <- firstn_map. apply NoDup_firstn.
    apply (grouped_revenue_labels_NoDup s (fun i => Some (OrderItem.seller_id i))).
Qed.

Lemma revenue_by_seller_rows_witness :
  total_revenue {| label := "A"; total_revenue := 30; order_count := 2 |}
  = seller_total "A" two_items_one_order.
Proof.
  refine (proj1 (proj2 (revenue_by_seller_rows stable_sorter two_items_one_order
                          {| label := "A"; total_revenue := 30; order_count := 2 |} _))).
  vm_compute. now left.
Defined.

(** X4: without order items the three revenue reports are empty frames,
    whatever the other tables hold. *)
Theorem revenue_reports_of_no_items (s : Sorter) products translation orders customers :
  revenue_by_category s [] products translation = [] /\
  revenue_by_region s [] orders customers = [] /\
  revenue_by_seller s [] = [].
Proof.
  unfold revenue_by_category, revenue_by_region, revenue_by_seller.
  repeat split.
  - apply sort_desc_nil.
  - apply sort_desc_nil.
  - unfold seller_totals. simpl. now rewrite sort_desc_nil.
Qed.

(** ** Rows and labels of the joined revenue reports *)

(** X5: every row of RevenueByRegion carries, for its state, the price sum
    and the number of the rows of the merged frame (order items merged with
    their order and its customer) that have this state; there is at least
    one such merged row, and no state has two rows. *)
Theorem revenue_by_region_rows (s : Sorter) items orders customers row :
  In row (revenue_by_region s items orders customers) ->
  let joined :=
    filter (fun r => String.eqb (Customer.customer_state (snd r)) (label row))
           (items_with_state items orders customers) in
  joined <> [] /\
  total_revenue row = col_sum (fun r => snd (fst (fst r))) joined /\
  order_count row = count joined /\
  NoDup (map label (revenue_by_region s items orders customers)).
Proof.
  intros Hin joined.
  destruct (grouped_revenue_row s _ _ _ row Hin) as (H1 & H2 & H3).
  repeat split; try assumption.
  apply (grouped_revenue_labels_NoDup s
           (fun r => Some (Customer.customer_state (snd r)))).
Qed.

Lemma revenue_by_region_rows_witness :
  order_count {| label := "SP"; total_revenue := 30; order_count := 2 |}
  = count (filter (fun r => String.eqb (Customer.customer_state (snd r)) "SP")
                  (items_with_state two_items_one_order sample_orders sample_customers)).
Proof.
  refine (proj1 (proj2 (proj2
            (revenue_by_region_rows stable_sorter two_items_one_order sample_orders
               sample_customers
               {| label := "SP"; total_revenue := 30; order_count := 2 |} _)))).
  vm_compute. now left.
Defined.

Lemma items_with_category_In items products translation i p t :
  In (i, p, t) (items_with_category items products translation) <->
  In i items /\ In p products /\ In t translation /\
  OrderItem.product_id i = Product.product_id p /\
  Product.product_category_name p = Translation.product_category_name t.
Proof.
  unfold items_with_category.
  rewrite (merge_inner_In String.eqb _ _ String.eqb_eq).
  rewrite (merge_inner_In String.eqb _ _ String.eqb_eq). cbn [fst snd].
  intuition.
Qed.

Lemma sorted_labels_In (s : Sorter) (rows : list RevenueRow) (l : string) :
  In l (map label (sort_desc s total_revenue rows)) <-> In l (map label rows).
Proof.
  rewrite !in_map_iff. split; intros (r & E & Hr); exists r; split; try exact E.
  - exact (proj1 (sort_desc_In s total_revenue rows r) Hr).
  - exact (proj2 (sort_desc_In s total_revenue rows r) Hr).
Qed.

(** X6: an English category name has a row in RevenueByCategory exactly
    when some order item's product is listed under a category that has this
    translation; it then has one row.  Items whose product or whose
    category translation is missing are in no row. *)
Theorem revenue_by_category_labels (s : Sorter) items products translation category :
  (In category (map label (revenue_by_category s items products translation)) <->
   exists i p t,
     In i items /\ In p products /\ In t translation /\
     OrderItem.product_id i = Product.product_id p /\
     Product.product_category_name p = Translation.product_category_name t /\
     Translation.product_category_name_english t = category) /\
  NoDup (map label (revenue_by_category s items products translation)).
Proof.
  split.
  - unfold revenue_by_category.
    rewrite (sorted_labels_In s).
    rewrite agg_revenue_labels, groupby_keys, group_keys_In, dropna_In. split.
    + intros ([[i p] t] & Hr & Hk). inversion Hk; subst.
      apply items_with_category_In in Hr. exists i, p, t. simpl. tauto.
    + intros (i & p & t & Hi & Hp & Ht & E1 & E2 & E3).
      exists (i, p, t). split; [apply items_with_category_In; tauto|].
      simpl. now rewrite E3.
  - apply (grouped_revenue_labels_NoDup s
             (fun r => Some (Translation.product_category_name_english (snd r)))).
Qed.

(** ** The Total Revenue card *)

Lemma kpi_figures_joined (s : Sorter) items products translation :
  kpi_total_revenue (revenue_by_category s items products translation)
  = col_sum (fun r => OrderItem.price (fst (fst r)))
            (items_with_category items products translation) /\
  kpi_orders (revenue_by_category s items products translation)
  = count (items_with_category items products translation).
Proof.
  unfold kpi_total_revenue, kpi_orders, revenue_by_category.
  rewrite <- !(col_sum_perm _ _ _ (sort_desc_perm s _ total_revenue _)).
  apply agg_revenue_sums.
Qed.

(** X7: the Total Revenue card shows the price sum of the order items that
    joined a product and a category translation, and its "orders" figure is
    the number of these joined item rows; neither depends on how the report
    is sorted. *)
Theorem kpi_total_revenue_joined (s s' : Sorter) items products translation :
  kpi_total_revenue (revenue_by_category s items products translation)
  = col_sum (fun r => OrderItem.price (fst (fst r)))
            (items_with_category items products translation) /\
  kpi_orders (revenue_by_category s items products translation)
  = count (items_with_category items products translation) /\
  kpi_total_revenue (revenue_by_category s' items products translation)
  = kpi_total_revenue (revenue_by_category s items products translation).
Proof.
  destruct (kpi_figures_joined s items products translation) as [H1 H2].
  destruct (kpi_figures_joined s' items products translation) as [H1' _].
  repeat split; congruence.
Qed.

Section MergeTotal.

Context {L R J : Type}.
Variable eqb : J -> J -> bool.
Variables (kl : L -> J) (kr : R -> J).
Hypothesis eqb_eq : forall a b, eqb a b = true <-> a = b.

(** When every left row has a partner and the right keys are distinct, an
    inner merge keeps the left frame row for row. *)
Lemma merge_inner_fst_total (left : list L) (right : list R) :
  NoDup (map kr right) ->
  (forall l, In l left -> exists r, In r right /\ kl l = kr r) ->
  map fst (merge_inner eqb kl kr left right) = left.
Proof.
  intros Hnd. induction left as [|l left IH]; intro Hex; [reflexivity|].
  rewrite merge_inner_cons, map_app, IH by (intros; apply Hex; now right).
  pose proof (matches_unique eqb kl kr eqb_eq l right Hnd) as Hm.
  destruct (Hex l (or_introl eq_refl)) as (r & Hr & E).
  assert (Hin : In r (matches eqb kl kr l right)) by (now apply matches_In).
  destruct (matches eqb kl kr l right) as [|r1 [|r2 ms]]; simpl in *;
    [contradiction|reflexivity|lia].
Qed.

End MergeTotal.

(** X8: when every order item has a product, every product's category has
    a translation, and both are listed once, no revenue is lost: the card
    shows the price sum and the row count of OrderItem. *)
Theorem kpi_total_revenue_complete (s : Sorter) items products translation :
  NoDup (map Product.product_id products) ->
  NoDup (map Translation.product_category_name translation) ->
  (forall i, In i items ->
     exists p, In p products /\ OrderItem.product_id i = Product.product_id p) ->
  (forall p, In p products ->
     exists t, In t translation /\
               Product.product_category_name p = Translation.product_category_name t) ->
  kpi_total_revenue (revenue_by_category s items products translation)
  = col_sum OrderItem.price items /\
  kpi_orders (revenue_by_category s items products translation) = count items.
Proof.
  intros Hp Ht Hip Hpt.
  destruct (kpi_figures_joined s items products translation) as [-> ->].
  assert (E : map (fun r => fst (fst r)) (items_with_category items products translation)
              = items).
  { unfold items_with_category.
    rewrite <- (map_map fst fst).
    rewrite (merge_inner_fst_total String.eqb _ _ String.eqb_eq); [|exact Ht|].
    - now apply (merge_inner_fst_total String.eqb _ _ String.eqb_eq).
    - intros [i p] Hin.
      apply (merge_inner_In String.eqb _ _ String.eqb_eq) in Hin.
      destruct Hin as (_ & Hp' & _). simpl. now apply Hpt. }
  split.
  - rewrite <- E at 2. now rewrite col_sum_map.
  - rewrite <- E at 2. unfold count. now rewrite length_map.
Qed.

Lemma kpi_total_revenue_complete_witness :
  kpi_total_revenue
    (revenue_by_category stable_sorter two_items_one_order one_product one_translation)
  = col_sum OrderItem.price two_items_one_order.
Proof.
  apply (kpi_total_revenue_complete stable_sorter two_items_one_order
           one_product one_translation).
  - repeat constructor. intros [].
  - repeat constructor. intros [].
  - intros i [<-|[<-|[]]];
      exists {| Product.product_id := "p";
                Product.product_category_name := "cama" |};
      (split; [now left|reflexivity]).
  - intros p [<-|[]].
    exists {| Translation.product_category_name := "cama";
              Translation.product_category_name_english := "bed" |}.
    split; [now left|reflexivity].
Defined.

(** ** Lead conversion by segment, as computed *)

Lemma merge_left_In_some {L R J} (eqb : J -> J -> bool) (kl : L -> J) (kr : R -> J)
    (left : list L) (right : list R) (l : L) (r : R) :
  In (l, Some r) (merge_left eqb kl kr left right) -> In l left /\ In r right.
Proof.
  unfold merge_left. rewrite in_flat_map. intros (l' & Hl' & Hin).
  destruct (matches eqb kl kr l' right) as [|r1 ms] eqn:Em.
  - destruct Hin as [E|[]]. discriminate E.
  - apply in_map_iff in Hin. destruct Hin as (r' & E & Hr'). inversion E; subst.
    split; [exact Hl'|]. rewrite <- Em in Hr'. unfold matches in Hr'.
    now apply filter_In in Hr'.
Qed.

Lemma count_notna_all {R A} (f : R -> option A) (rows : list R) :
  (forall r, In r rows -> f r <> None) -> count_notna f rows = count rows.
Proof.
  intro H. unfold count_notna, count. do 2 f_equal.
  induction rows as [|r rows IH]; [reflexivity|]. simpl.
  destruct (f r) eqn:E.
  - f_equal. apply IH. intros; apply H; now right.
  - exfalso. apply (H r); [now left|exact E].
Qed.

Lemma full_ratio_is_100 (t : Z) :
  0 < t -> Qeq (Qmult (Qdiv (inject_Z t) (inject_Z t)) (inject_Z 100)) (inject_Z 100).
Proof.
  intro Ht.
  assert (Hnz : ~ Qeq (inject_Z t) 0).
  { intro E. unfold Qeq in E. simpl in E. lia. }
  unfold Qdiv. rewrite (Qmult_inv_r _ Hnz). apply Qmult_1_l.
Qed.

(** X9: when every closed deal has a won_date, every row of
    LeadConversionBySegment has converted_leads equal to total_leads and a
    conversion_rate of 100: the leads without a deal, having no segment
    after the merge, are in no row. *)
Theorem segment_rates_all_100 (mql_ids : list Z) (closed : list ClosedLead.t)
    (rows : list SegmentRow.t) (row : SegmentRow.t) :
  (forall c, In c closed -> ClosedLead.won_date c <> None) ->
  lead_conversion_by_segment (QLeads mql_ids) closed = Ok rows ->
  In row rows ->
  SegmentRow.converted_leads row = SegmentRow.total_leads row /\
  exists q, SegmentRow.conversion_rate row = Fin q /\ Qeq q (inject_Z 100).
Proof.
  intros Hwon E Hrow.
  destruct (segment_rows_In _ _ _ _ E Hrow) as (g & Hne & Hg & Ht & Hc & Hr).
  assert (Hall : count_notna joined_won_date g = count g).
  { apply count_notna_all. intros [m o] Hin.
    apply groupby_In in Hg. destruct Hg as [_ Hg]. simpl in Hg. rewrite Hg in Hin.
    apply filter_In in Hin. destruct Hin as [Hin Hk].
    apply in_group_true in Hk. unfold joined_segment in Hk. simpl in Hk.
    destruct o as [c|]; [|discriminate].
    apply merge_left_In_some in Hin. unfold joined_won_date. simpl.
    apply Hwon. tauto. }
  split; [congruence|].
  rewrite Hr, Hall. unfold segment_rate, pd_truediv.
  pose proof (count_pos g Hne) as Hpos.
  replace (count g =? 0) with false by (symmetry; apply Z.eqb_neq; lia).
  simpl. eexists. split; [reflexivity|]. now apply full_ratio_is_100.
Qed.

Lemma segment_rates_all_100_witness :
  exists q, Fin (100 # 1) = Fin q /\ Qeq q (inject_Z 100).
Proof.
  refine (proj2 (segment_rates_all_100 [1; 2] one_closed_lead _
                   {| SegmentRow.business_segment := "X";
                      SegmentRow.total_leads := 1;
                      SegmentRow.converted_leads := 1;
                      SegmentRow.conversion_rate := Fin (100 # 1) |} _ eq_refl _)).
  - intros c [<-|[]]. discriminate.
  - now left.
Defined.




Lemma col_sum_indicator {R} (p : R -> bool) (l : list R) :
  col_sum (fun r => if p r then 1 else 0) l = count (filter p l).
Proof.
  unfold count. induction l as [|x l IH]; [reflexivity|].
  rewrite col_sum_cons, IH. simpl. destruct (p x); cbn [List.length]; lia.
Qed.

Lemma count_filter_impl {R} (p q : R -> bool) (l : list R) :
  (forall r, In r l -> p r = true -> q r = true) ->
  count (filter p l) <= count (filter q l).
Proof.
  intro H. rewrite <- !col_sum_indicator. apply col_sum_le.
  intros r Hr. specialize (H r Hr).
  destruct (p r), (q r); first [lia|discriminate (H eq_refl)].
Qed.

Lemma existsb_filter {R} (p : R -> bool) (l : list R) :
  existsb p l = match filter p l with [] => false | _ => true end.
Proof.
  induction l as [|x l IH]; [reflexivity|]. simpl. destruct (p x); [reflexivity|].
  exact IH.
Qed.

(** X11: the segment totals leave the unconverted leads out.  With one
    closed deal per lead at most, the total_leads of all segments together
    count no more than the qualified leads that have a closed deal. *)
Theorem segment_totals_count_deals_only (mql_ids : list Z) (closed : list ClosedLead.t)
    (rows : list SegmentRow.t) :
  NoDup (map ClosedLead.mql_id closed) ->
  lead_conversion_by_segment (QLeads mql_ids) closed = Ok rows ->
  col_sum SegmentRow.total_leads rows <= count (filter (has_deal closed) mql_ids).
Proof.
  intros Hnd E. apply lead_conversion_by_segment_Ok in E. destruct E as [-> _].
  unfold segment_rows. rewrite col_sum_map. simpl.
  rewrite (col_sum_ext _ (fun kg => col_sum (fun _ => 1) (snd kg)))
    by (intros; apply count_as_sum).
  rewrite groupby_sum, <- count_as_sum.
  etransitivity; [apply (count_filter_impl _ has_partner)|].
  - intros [m o] _. unfold keyed, joined_segment, has_partner. simpl.
    destruct o; [reflexivity|discriminate].
  - unfold leads_joined. rewrite merge_left_partners, <- col_sum_indicator.
    apply col_sum_le. intros m _. unfold has_deal. rewrite existsb_filter.
    pose proof (matches_unique Z.eqb (fun m => m) ClosedLead.mql_id Z.eqb_eq
                  m closed Hnd) as Hm.
    unfold matches in *.
    destruct (filter (fun c => Z.eqb m (ClosedLead.mql_id c)) closed)
      as [|c1 [|c2 cs]]; unfold count; simpl in *; lia.
Qed.

Lemma segment_totals_count_deals_only_witness :
  col_sum SegmentRow.total_leads
    [{| SegmentRow.business_segment := "X";
        SegmentRow.total_leads := 1;
        SegmentRow.converted_leads := 1;
        SegmentRow.conversion_rate := Fin (100 # 1) |}]
  <= count (filter (has_deal one_closed_lead) [1; 2]).
Proof.
  apply (segment_totals_count_deals_only [1; 2] one_closed_lead).
  - repeat constructor. intros [].
  - reflexivity.
Defined.

(** ** Lead leakage *)



(** Without qualified leads the row shows minus the closed deals and 100
    percent. *)
Lemma lead_leakage_no_qualified (closed : list ClosedLead.t) :
  lead_leakage (lead_metrics (QLeads []) closed)
  = (- count closed, Qminus (inject_Z 100) (inject_Z 0)).
Proof. reflexivity. Qed.

(** ** The delivery tab *)

(** X13: the histogram of the delivery tab draws one value per order, in
    order: a missing delay stays missing, a delay within [-30, 30] is drawn
    as it is, and any other is drawn as the nearer of -30 and 30. *)
Theorem delay_data_clipped (dm : list DeliveryRow) :
  Forall2 clipped_from (map dm_delivery_delay dm) (delay_data dm).
Proof.
  unfold delay_data. induction dm as [|r dm IH]; simpl; constructor; [|exact IH].
  destruct (dm_delivery_delay r) as [d|]; simpl; [|exact I].
  unfold clip. lia.
Qed.

Lemma status_count_cons (status : string) (r : DeliveryRow) (dm : list DeliveryRow) :
  status_count status (r :: dm)
  = (if String.eqb (dm_delay_status r) status then 1 else 0) + status_count status dm.
Proof.
  unfold status_count, count. simpl.
  destruct (String.eqb (dm_delay_status r) status); cbn [List.length]; lia.
Qed.

Lemma status_counts_le (dm : list DeliveryRow) :
  status_count "Early" dm + status_count "On Time" dm + status_count "Late" dm
  <= count dm.
Proof.
  induction dm as [|r dm IH]; [reflexivity|].
  rewrite !status_count_cons. unfold count in *. cbn [List.length].
  destruct (String.eqb (dm_delay_status r) "Early") eqn:E1;
    destruct (String.eqb (dm_delay_status r) "On Time") eqn:E2;
    destruct (String.eqb (dm_delay_status r) "Late") eqn:E3;
    try lia;
    repeat match goal with
           | H : String.eqb _ _ = true |- _ => apply String.eqb_eq in H
           end; congruence.
Qed.

Lemma status_counts_sum (dm : list DeliveryRow) :
  (forall r, In r dm -> known_status r) ->
  status_count "Early" dm + status_count "On Time" dm + status_count "Late" dm
  = count dm.
Proof.
  induction dm as [|r dm IH]; intro H; [reflexivity|].
  rewrite !status_count_cons.
  assert (IH' : status_count "Early" dm + status_count "On Time" dm
                + status_count "Late" dm = count dm)
    by (apply IH; intros; apply H; now right).
  unfold count in *. cbn [List.length].
  assert (N1 : String.eqb "Early" "On Time" = false) by reflexivity.
  assert (N2 : String.eqb "Early" "Late" = false) by reflexivity.
  assert (N3 : String.eqb "On Time" "Early" = false) by reflexivity.
  assert (N4 : String.eqb "On Time" "Late" = false) by reflexivity.
  assert (N5 : String.eqb "Late" "Early" = false) by reflexivity.
  assert (N6 : String.eqb "Late" "On Time" = false) by reflexivity.
  destruct (H r (or_introl eq_refl)) as [E|[E|E]]; rewrite E;
    rewrite ?String.eqb_refl, ?N1, ?N2, ?N3, ?N4, ?N5, ?N6; lia.
Qed.

(** X14: when every delay_status is "Early", "On Time" or "Late", the three
    counts of the Key Delivery Metrics table add up to the number of
    orders; in general they add up to no more, a row with any other status
    being in none of them. *)
Theorem status_counts_partition (dm : list DeliveryRow) :
  (forall r, In r dm -> known_status r) ->
  status_count "Early" dm + status_count "On Time" dm + status_count "Late" dm
  = count dm /\
  forall dm' : list DeliveryRow,
    status_count "Early" dm' + status_count "On Time" dm' + status_count "Late" dm'
    <= count dm'.
Proof.
  intro H. split; [now apply status_counts_sum|apply status_counts_le].
Qed.

Lemma sample_statuses_known (r : DeliveryRow) :
  In r (delivery_metrics sample_orders) -> known_status r.
Proof.
  intros [<-|[<-|[]]]; unfold known_status; simpl; auto.
Qed.

Lemma status_counts_partition_witness :
  status_count "Early" (delivery_metrics sample_orders)
  + status_count "On Time" (delivery_metrics sample_orders)
  + status_count "Late" (delivery_metrics sample_orders)
  = count (delivery_metrics sample_orders).
Proof.
  exact (proj1 (status_counts_partition (delivery_metrics sample_orders)
                  sample_statuses_known)).
Defined.

Lemma mean_nonempty (xs : list Z) :
  xs <> [] ->
  mean xs = Fin (Qdiv (inject_Z (fold_right Z.add 0 xs))
                      (inject_Z (Z.of_nat (List.length xs)))).
Proof. destruct xs; [contradiction|reflexivity]. Qed.

Lemma status_share_value (status : string) (dm : list DeliveryRow) :
  dm <> [] ->
  status_share status dm
  = Fin (Qmult (Qdiv (inject_Z (status_count status dm)) (inject_Z (count dm)))
               (inject_Z 100)).
Proof.
  intro Hne. unfold status_share.
  rewrite mean_nonempty by (destruct dm; [contradiction|discriminate]).
  simpl. rewrite length_map.
  change (fold_right Z.add 0
            (map (fun r => if String.eqb (dm_delay_status r) status then 1 else 0) dm))
    with (col_sum (fun r => if String.eqb (dm_delay_status r) status then 1 else 0) dm).
  now rewrite col_sum_indicator.
Qed.

(** X15: on a non-empty frame whose statuses are all known, the three
    shares the delivery tab shows are percentages that add up to 100. *)
Theorem status_shares_total (dm : list DeliveryRow) :
  dm <> [] ->
  (forall r, In r dm -> known_status r) ->
  exists e o l,
    status_share "Early" dm = Fin e /\
    status_share "On Time" dm = Fin o /\
    status_share "Late" dm = Fin l /\
    percentage e /\ percentage o /\ percentage l /\
    Qeq (Qplus (Qplus e o) l) (inject_Z 100).
Proof.
  intros Hne Hknown.
  pose proof (status_counts_sum dm Hknown) as Hsum.
  pose proof (count_pos dm Hne) as Hpos.
  assert (Hc : forall st, 0 <= status_count st dm <= count dm).
  { intro st. unfold status_count, count. split; [lia|].
    apply inj_le, filter_length_le. }
  do 3 eexists.
  repeat (split; [apply status_share_value; exact Hne|]).
  repeat (split; [apply ratio_percentage; [apply Hc|exact Hpos]|]).
  rewrite <- Hsum at 1 2 3.
  assert (Hnz : ~ Qeq (inject_Z (status_count "Early" dm)
                       + inject_Z (status_count "On Time" dm)
                       + inject_Z (status_count "Late" dm)) 0).
  { rewrite <- !inject_Z_plus, Hsum. intro E. unfold Qeq in E. simpl in E. lia. }
  rewrite !inject_Z_plus. field. exact Hnz.
Qed.

Lemma status_shares_total_witness :
  exists e o l,
    status_share "Early" (delivery_metrics sample_orders) = Fin e /\
    status_share "On Time" (delivery_metrics sample_orders) = Fin o /\
    status_share "Late" (delivery_metrics sample_orders) = Fin l /\
    percentage e /\ percentage o /\ percentage l /\
    Qeq (Qplus (Qplus e o) l) (inject_Z 100).
Proof.
  apply (status_shares_total (delivery_metrics sample_orders)).
  - discriminate.
  - exact sample_statuses_known.
Defined.

(** On an empty frame the shares and the mean delay are NaN. *)
Lemma delivery_figures_of_no_orders (status : string) :
  status_share status (delivery_metrics []) = NaN /\
  mean_delay (delivery_metrics []) = NaN.
Proof. split; reflexivity. Qed.

(** X16: the average delay is taken over the orders that have one: it lies
    between any two bounds of the recorded delays, and it is a number as
    soon as one order has a delay. *)
Theorem mean_delay_bounds (lo hi : Z) (dm : list DeliveryRow) :
  (exists r d, In r dm /\ dm_delivery_delay r = Some d) ->
  (forall r d, In r dm -> dm_delivery_delay r = Some d -> lo <= d <= hi) ->
  exists q, mean_delay dm = Fin q /\ (inject_Z lo <= q)%Q /\ (q <= inject_Z hi)%Q.
Proof.
  intros (r & d & Hr & Hd) Hb. unfold mean_delay. apply mean_bounds.
  - intro E. assert (Hin : In d (dropna dm_delivery_delay dm))
      by (apply dropna_In; now exists r).
    rewrite E in Hin. destruct Hin.
  - intros x Hx. apply dropna_In in Hx. destruct Hx as (r' & Hr' & Hx).
    now apply (Hb r').
Qed.

Lemma mean_delay_bounds_witness :
  exists q, mean_delay (delivery_metrics sample_orders) = Fin q /\
            (inject_Z (-3) <= q)%Q /\ (q <= inject_Z 45)%Q.
Proof.
  apply (mean_delay_bounds (-3) 45 (delivery_metrics sample_orders)).
  - eexists. exists 45. split; [now left|reflexivity].
  - intros r d [<-|[<-|[]]] E; inversion E; lia.
Defined.

(** ** The Avg Satisfaction card *)

Lemma pd_sum_bounds (lo hi : Q) (xs : list pdfloat) :
  Forall (fun x => exists q, x = Fin q /\ (lo <= q)%Q /\ (q <= hi)%Q) xs ->
  exists total,
    fold_right pd_add (Fin (inject_Z 0)) xs = Fin total /\
    (lo * inject_Z (Z.of_nat (List.length xs)) <= total)%Q /\
    (total <= hi * inject_Z (Z.of_nat (List.length xs)))%Q.
Proof.
  induction 1 as [|x xs (q & -> & Hlo & Hhi) Hxs (t & Et & Htlo & Hthi)].
  - exists (inject_Z 0). simpl. split; [reflexivity|].
    split; rewrite Qmult_0_r; apply Qle_refl.
  - exists (q + t)%Q. cbn [fold_right List.length]. rewrite Et. split; [reflexivity|].
    rewrite Nat2Z.inj_succ. unfold Z.succ. rewrite inject_Z_plus.
    split.
    + setoid_replace (lo * (inject_Z (Z.of_nat (List.length xs)) + inject_Z 1))%Q
        with (lo + lo * inject_Z (Z.of_nat (List.length xs)))%Q by ring.
      now apply Qplus_le_compat.
    + setoid_replace (hi * (inject_Z (Z.of_nat (List.length xs)) + inject_Z 1))%Q
        with (hi + hi * inject_Z (Z.of_nat (List.length xs)))%Q by ring.
      now apply Qplus_le_compat.
Qed.

Lemma filter_notna_all (xs : list pdfloat) :
  Forall (fun x => exists q, x = Fin q) xs -> filter notna xs = xs.
Proof.
  induction 1 as [|x xs (q & ->) Hxs IH]; [reflexivity|]. simpl. now rewrite IH.
Qed.

Lemma mean_float_bounds (lo hi : Q) (xs : list pdfloat) :
  xs <> [] ->
  Forall (fun x => exists q, x = Fin q /\ (lo <= q)%Q /\ (q <= hi)%Q) xs ->
  exists q, mean_float xs = Fin q /\ (lo <= q)%Q /\ (q <= hi)%Q.
Proof.
  intros Hne Hall. unfold mean_float.
  rewrite filter_notna_all
    by (eapply Forall_impl; [|exact Hall]; intros x (q & E & _); now exists q).
  destruct (pd_sum_bounds lo hi xs Hall) as (t & Et & Hlo & Hhi).
  destruct xs as [|x xs]; [contradiction|]. rewrite Et.
  set (n := Z.of_nat (List.length (x :: xs))) in *.
  assert (Hn : (0 < inject_Z n)%Q).
  { change 0%Q with (inject_Z 0). rewrite <- Zlt_Qlt. subst n.
    cbn [List.length]. lia. }
  eexists. split; [reflexivity|]. split.
  - now apply Qle_shift_div_l.
  - now apply Qle_shift_div_r.
Qed.

Lemma monthly_means_in_range (reviews : list OrderReview.t) (orders : list Order.t) :
  (forall r, In r reviews -> 1 <= OrderReview.review_score r <= 5) ->
  Forall (fun x => exists q, x = Fin q /\ (inject_Z 1 <= q)%Q /\ (q <= inject_Z 5)%Q)
         (map mean_score (satisfaction_over_time reviews orders)).
Proof.
  intro Hscore. apply Forall_forall. intros x Hx.
  unfold satisfaction_over_time, satisfaction_by_period in Hx.
  rewrite !map_map in Hx. simpl in Hx. apply in_map_iff in Hx.
  destruct Hx as (kg & <- & Hkg).
  apply (mean_bounds 1 5).
  - pose proof (groupby_nonempty _ _ _ Hkg) as Hne.
    destruct (snd kg); [contradiction|discriminate].
  - intros v Hv. apply in_map_iff in Hv. destruct Hv as ([r o] & <- & Hro).
    apply groupby_In in Hkg. destruct Hkg as [_ Hg]. rewrite Hg in Hro.
    apply filter_In in Hro. destruct Hro as [Hro _].
    apply satisfaction_data_In in Hro. simpl. apply Hscore. tauto.
Qed.

(** X17: the Avg Satisfaction card is the mean of the monthly means.  With
    review scores between 1 and 5 and at least one month in the report it
    is a number in [1,5]; with no month (no review has an order with a
    timestamp) it is NaN. *)
Theorem avg_satisfaction_bounds (reviews : list OrderReview.t) (orders : list Order.t) :
  (forall r, In r reviews -> 1 <= OrderReview.review_score r <= 5) ->
  (satisfaction_over_time reviews orders <> [] ->
   exists q, avg_satisfaction (satisfaction_over_time reviews orders) = Fin q /\
             (inject_Z 1 <= q)%Q /\ (q <= inject_Z 5)%Q) /\
  (satisfaction_over_time reviews orders = [] ->
   avg_satisfaction (satisfaction_over_time reviews orders) = NaN).
Proof.
  intro Hscore. split.
  - intro Hne. unfold avg_satisfaction. apply mean_float_bounds.
    + destruct (satisfaction_over_time reviews orders); [contradiction|discriminate].
    + now apply monthly_means_in_range.
  - intros ->. reflexivity.
Qed.

Lemma avg_satisfaction_bounds_witness :
  exists q, avg_satisfaction (satisfaction_over_time sample_reviews sample_orders) = Fin q /\
            (inject_Z 1 <= q)%Q /\ (q <= inject_Z 5)%Q.
Proof.
  apply (avg_satisfaction_bounds sample_reviews sample_orders sample_reviews_scores).
  discriminate.
Defined.

(** ** Counted columns *)

Section ValueCountsFacts.

Context {K : Type} {KO : KeyOrd K}.

Lemma kle_cases (a b : K) : kle a b <-> a = b \/ klt a b.
Proof.
  unfold kle, klt. split.
  - destruct (kcmp a b) eqn:E; intro H.
    + left. now apply kcmp_eq.
    + now right.
    + contradiction.
  - intros [->|H]; [rewrite kcmp_refl|rewrite H]; discriminate.
Qed.

Lemma kle_trans (a b c : K) : kle a b -> kle b c -> kle a c.
Proof.
  rewrite !kle_cases. intros [->|Hab] [->|Hbc]; auto.
  right. exact (klt_trans _ _ _ Hab Hbc).
Qed.

Lemma unique_In (x : K) (xs : list K) : In x (unique xs) <-> In x xs.
Proof.
  induction xs as [|y xs IH]; simpl; [reflexivity|].
  rewrite filter_In, IH. split.
  - intros [->|[H _]]; auto.
  - intros [->|H]; [now left|].
    destruct (keqb x y) eqn:E.
    + apply keqb_eq in E. now left.
    + right. split; [exact H|reflexivity].
Qed.

Lemma unique_NoDup (xs : list K) : NoDup (unique xs).
Proof.
  induction xs as [|y xs IH]; simpl; constructor.
  - rewrite filter_In. intros [_ H]. now rewrite keqb_refl in H.
  - now apply NoDup_filter.
Qed.

Lemma insert_by_index_perm (row : K * Z) (rows : list (K * Z)) :
  Permutation (row :: rows) (insert_by_index row rows).
Proof.
  induction rows as [|r rows IH]; simpl; [apply Permutation_refl|].
  destruct (kcmp (fst row) (fst r)); try apply Permutation_refl.
  eapply perm_trans; [apply perm_swap|]. now apply perm_skip.
Qed.

Lemma sort_index_perm (rows : list (K * Z)) : Permutation rows (sort_index rows).
Proof.
  induction rows as [|r rows IH]; simpl; [apply perm_nil|].
  eapply perm_trans; [apply perm_skip, IH|]. apply insert_by_index_perm.
Qed.

Lemma insert_by_index_sorted (row : K * Z) (rows : list (K * Z)) :
  StronglySorted (fun a b => kle (fst a) (fst b)) rows ->
  StronglySorted (fun a b => kle (fst a) (fst b)) (insert_by_index row rows).
Proof.
  induction 1 as [|r rows Hs IH Hr]; simpl.
  - constructor; constructor.
  - destruct (kcmp (fst row) (fst r)) eqn:E.
    + constructor; [now constructor|].
      assert (Hle : kle (fst row) (fst r)) by (unfold kle; rewrite E; discriminate).
      constructor; [exact Hle|].
      eapply Forall_impl; [|exact Hr]. intros a Ha. exact (kle_trans _ _ _ Hle Ha).
    + constructor; [now constructor|].
      assert (Hle : kle (fst row) (fst r)) by (unfold kle; rewrite E; discriminate).
      constructor; [exact Hle|].
      eapply Forall_impl; [|exact Hr]. intros a Ha. exact (kle_trans _ _ _ Hle Ha).
    + constructor; [exact IH|].
      apply Forall_forall. intros a Ha.
      apply (Permutation_in _ (Permutation_sym (insert_by_index_perm row rows))) in Ha.
      destruct Ha as [<-|Ha].
      * apply kle_cases. right. now apply kcmp_gt_lt.
      * rewrite Forall_forall in Hr. now apply Hr.
Qed.

Lemma sort_index_sorted (rows : list (K * Z)) :
  StronglySorted (fun a b => kle (fst a) (fst b)) (sort_index rows).
Proof.
  induction rows as [|r rows IH]; simpl; [constructor|].
  now apply insert_by_index_sorted.
Qed.

Lemma sorted_distinct_strict (rows : list (K * Z)) :
  NoDup (map fst rows) ->
  StronglySorted (fun a b => kle (fst a) (fst b)) rows ->
  StronglySorted (fun a b => klt (fst a) (fst b)) rows.
Proof.
  intros Hnd Hs. induction Hs as [|r rows Hs IH Hr]; [constructor|].
  simpl in Hnd. inversion Hnd as [|? ? Hnot Hnd']; subst.
  constructor; [now apply IH|].
  rewrite Forall_forall in *. intros a Ha.
  destruct (proj1 (kle_cases _ _) (Hr a Ha)) as [E|Hlt]; [|exact Hlt].
  exfalso. apply Hnot. rewrite E. now apply in_map.
Qed.

(** The frame [value_counts] sorts: each distinct value with its number of
    occurrences. *)
Lemma counted_sum (xs : list K) :
  col_sum snd (map (fun v => (v, count (filter (fun y => keqb y v) xs))) (unique xs))
  = count xs.
Proof.
  rewrite col_sum_map. simpl.
  rewrite (col_sum_ext _ (fun v => col_sum (fun _ => 1)
                                           (filter (in_group Some v) xs)))
    by (intros; apply count_as_sum).
  rewrite (groups_sum_over Some); [|apply unique_NoDup|].
  - rewrite filter_keyed_all. symmetry. apply count_as_sum.
  - intros r k Hr Hk. inversion Hk; subst. now apply unique_In.
Qed.

Lemma value_counts_perm (s : Sorter) (xs : list K) :
  Permutation (map (fun v => (v, count (filter (fun y => keqb y v) xs))) (unique xs))
              (value_counts s xs).
Proof. apply sort_desc_perm. Qed.

Lemma value_counts_In (s : Sorter) (xs : list K) (v : K) (c : Z) :
  In (v, c) (value_counts s xs) <->
  In v xs /\ c = count (filter (fun y => keqb y v) xs).
Proof.
  unfold value_counts. rewrite (sort_desc_In s snd), in_map_iff. split.
  - intros (v' & E & Hv'). inversion E; subst. split; [|reflexivity].
    now apply unique_In.
  - intros (Hv & ->). exists v. split; [reflexivity|]. now apply unique_In.
Qed.

Lemma value_counts_keys_NoDup (s : Sorter) (xs : list K) :
  NoDup (map fst (value_counts s xs)).
Proof.
  eapply Permutation_NoDup; [apply Permutation_map, value_counts_perm|].
  rewrite map_map. simpl. rewrite map_id. apply unique_NoDup.
Qed.

Lemma value_counts_sum (s : Sorter) (xs : list K) :
  col_sum snd (value_counts s xs) = count xs.
Proof.
  rewrite <- (col_sum_perm _ _ _ (value_counts_perm s xs)). apply counted_sum.
Qed.

End ValueCountsFacts.

Lemma keqb_Z (a b : Z) : keqb a b = Z.eqb a b.
Proof.
  destruct (Z.eqb a b) eqn:E.
  - apply Z.eqb_eq in E. subst. apply keqb_refl.
  - apply Z.eqb_neq in E. destruct (keqb a b) eqn:E'; [|reflexivity].
    apply keqb_eq in E'. contradiction.
Qed.

Lemma sorted_rows_ext {K} {KO : KeyOrd K} (l1 l2 : list (K * Z)) :
  StronglySorted (fun a b => klt (fst a) (fst b)) l1 ->
  StronglySorted (fun a b => klt (fst a) (fst b)) l2 ->
  (forall x, In x l1 <-> In x l2) -> l1 = l2.
Proof.
  intros H1. revert l2.
  induction H1 as [|a t1 Ht1 IH Ha]; intros l2 H2 Hext.
  - destruct l2 as [|b t2]; [reflexivity|].
    exfalso. apply (proj2 (Hext b)). now left.
  - destruct H2 as [|b t2 Ht2 Hb].
    + exfalso. apply (proj1 (Hext a)). now left.
    + rewrite Forall_forall in Ha, Hb.
      assert (a = b) as <-.
      { destruct (proj1 (Hext a) (or_introl eq_refl)) as [E|Hin]; [now symmetry|].
        destruct (proj2 (Hext b) (or_introl eq_refl)) as [E|Hin']; [exact E|].
        exfalso. exact (klt_asym _ _ (Ha _ Hin') (Hb _ Hin)). }
      f_equal. apply IH; [exact Ht2|].
      intro x. split; intro Hx.
      * destruct (proj1 (Hext x) (or_intror Hx)) as [E|Hin]; [|exact Hin].
        subst x. exfalso. exact (klt_irrefl _ (Ha _ Hx)).
      * destruct (proj2 (Hext x) (or_intror Hx)) as [E|Hin]; [|exact Hin].
        subst x. exfalso. exact (klt_irrefl _ (Hb _ Hx)).
Qed.

Lemma review_distribution_sorted (s : Sorter) (reviews : list OrderReview.t) :
  StronglySorted (fun a b => klt (fst a) (fst b)) (review_distribution s reviews).
Proof.
  unfold review_distribution. apply sorted_distinct_strict.
  - eapply Permutation_NoDup; [apply Permutation_map, sort_index_perm|].
    apply value_counts_keys_NoDup.
  - apply sort_index_sorted.
Qed.

Lemma review_distribution_In (s : Sorter) (reviews : list OrderReview.t) (v c : Z) :
  In (v, c) (review_distribution s reviews) <->
  In v (map OrderReview.review_score reviews) /\
  c = count (filter (fun y => Z.eqb y v) (map OrderReview.review_score reviews)).
Proof.
  unfold review_distribution.
  rewrite <- (filter_ext _ _ (fun y => keqb_Z y v)).
  rewrite <- value_counts_In with (s := s). split; apply Permutation_in.
  - apply Permutation_sym, sort_index_perm.
  - apply sort_index_perm.
Qed.

(** X18: the review score distribution of the satisfaction tab lists every
    score that occurs once, in strictly ascending order, with the number of
    reviews that gave it; the counts add up to the number of reviews, and
    the frame is the same however value_counts ordered it first. *)
Theorem review_distribution_counts (s s' : Sorter) (reviews : list OrderReview.t) :
  StronglySorted (fun a b => fst a < fst b) (review_distribution s reviews) /\
  (forall v c,
     In (v, c) (review_distribution s reviews) <->
     In v (map OrderReview.review_score reviews) /\
     c = count (filter (fun y => Z.eqb y v) (map OrderReview.review_score reviews))) /\
  col_sum snd (review_distribution s reviews) = count reviews /\
  review_distribution s' reviews = review_distribution s reviews.
Proof.
  split; [exact (review_distribution_sorted s reviews)|].
  split; [apply review_distribution_In|]. split.
  - unfold review_distribution.
    rewrite <- (col_sum_perm _ _ _ (sort_index_perm _)), value_counts_sum.
    unfold count. now rewrite length_map.
  - apply sorted_rows_ext; try apply review_distribution_sorted.
    intros [v c]. now rewrite !review_distribution_In.
Qed.

Lemma filter_map_count {A B} (f : A -> B) (p : B -> bool) (l : list A) :
  count (filter p (map f l)) = count (filter (fun a => p (f a)) l).
Proof.
  unfold count. f_equal. induction l as [|a l IH]; [reflexivity|]. simpl.
  destruct (p (f a)); simpl; now rewrite IH.
Qed.

(** X19: the delay status distribution of the delivery tab has one row per
    status that occurs, the most frequent first; each row carries the number
    of orders with that status, and the rows add up to the number of
    orders. *)
Theorem delay_distribution_counts (s : Sorter) (dm : list DeliveryRow) :
  StronglySorted (fun a b => snd b <= snd a) (delay_distribution s dm) /\
  NoDup (map fst (delay_distribution s dm)) /\
  (forall status c,
     In (status, c) (delay_distribution s dm) <->
     In status (map dm_delay_status dm) /\ c = status_count status dm) /\
  col_sum snd (delay_distribution s dm) = count dm.
Proof.
  unfold delay_distribution. split; [apply sort_desc_sorted|].
  split; [apply value_counts_keys_NoDup|]. split.
  - intros status c. rewrite value_counts_In. unfold status_count.
    rewrite filter_map_count.
    rewrite (filter_ext _ (fun r => String.eqb (dm_delay_status r) status))
      by (intro r; apply keqb_string).
    reflexivity.
  - rewrite value_counts_sum. unfold count. now rewrite length_map.
Qed.

(** ** The Top Sellers chart *)

Lemma string_length_append (a b : string) :
  String.length (a ++ b)%string = (String.length a + String.length b)%nat.
Proof. induction a as [|c a IH]; simpl; [reflexivity|]. now rewrite IH. Qed.

Lemma string_length_prefix (n : nat) (a : string) :
  String.length (substring 0 n a) = Nat.min n (String.length a).
Proof.
  revert a. induction n as [|n IH]; intros [|c a]; simpl; try reflexivity.
  now rewrite IH.
Qed.

Lemma prefix_substring (n : nat) (a : string) : prefix (substring 0 n a) a = true.
Proof.
  revert a. induction n as [|n IH]; intros [|c a]; simpl; try reflexivity.
  destruct (ascii_dec c c) as [_|Hne]; [apply IH|contradiction].
Qed.

(** X20: the Top Sellers chart draws at most ten bars, in descending order
    of revenue, each with the total of a seller of RevenueBySeller.  A
    label is the first 15 characters of the seller id followed by "...",
    for shorter ids too, so it has min(15, length) + 3 characters. *)
Theorem top_sellers_chart_bars (s : Sorter) items :
  (List.length (top_sellers_chart (revenue_by_seller s items)) <= 10)%nat /\
  StronglySorted (fun a b => snd b <= snd a)
                 (top_sellers_chart (revenue_by_seller s items)) /\
  Forall (fun bar =>
            exists row,
              In row (revenue_by_seller s items) /\
              snd bar = seller_total (label row) items /\
              fst bar = (substring 0 15 (label row) ++ "...")%string /\
              prefix (substring 0 15 (label row)) (label row) = true /\
              String.length (fst bar)
              = (Nat.min 15 (String.length (label row)) + 3)%nat)
         (top_sellers_chart (revenue_by_seller s items)).
Proof.
  unfold top_sellers_chart, head. split; [|split].
  - rewrite length_map. apply firstn_le_length.
  - apply (StronglySorted_map_within
             (fun a b : RevenueRow => total_revenue b <= total_revenue a)).
    + intros a b _ _ H. exact H.
    + apply StronglySorted_firstn, revenue_by_seller_descending.
  - apply Forall_forall. intros bar Hbar. apply in_map_iff in Hbar.
    destruct Hbar as (row & <- & Hrow).
    assert (Hin : In row (revenue_by_seller s items)).
    { rewrite <- (firstn_skipn 10 (revenue_by_seller s items)).
      apply in_or_app. now left. }
    exists row. simpl. split; [exact Hin|].
    assert (Hin' : In row (sort_desc s total_revenue (seller_totals items))).
    { unfold revenue_by_seller, head in Hin.
      rewrite <- (firstn_skipn 20 (sort_desc s total_revenue (seller_totals items))).
      apply in_or_app. now left. }
    destruct (grouped_revenue_row s OrderItem.seller_id OrderItem.price items row Hin')
      as (_ & Ht & _).
    split; [exact Ht|]. split; [reflexivity|]. split; [apply prefix_substring|].
    unfold seller_axis_label.
    now rewrite string_length_append, string_length_prefix.
Qed.

(** ** Reviews kept by the satisfaction report *)

(** X21: when every review has its order in the order table, once, with a
    purchase timestamp, no review is lost: the review counts of
    SatisfactionOverTime add up to the number of reviews. *)
Theorem satisfaction_counts_all_reviews (reviews : list OrderReview.t)
    (orders : list Order.t) :
  NoDup (map Order.order_id orders) ->
  (forall o, In o orders -> Order.order_purchase_timestamp o <> None) ->
  (forall r, In r reviews ->
     exists o, In o orders /\ OrderReview.order_id r = Order.order_id o) ->
  col_sum review_count (satisfaction_over_time reviews orders) = count reviews.
Proof.
  intros Hnd Hts Hex.
  assert (Hnd' : NoDup (map fst (order_timestamp orders)))
    by (unfold order_timestamp; now rewrite map_map).
  assert (Efst : map fst (satisfaction_data reviews orders) = reviews).
  { unfold satisfaction_data.
    apply (merge_inner_fst_total Z.eqb _ _ Z.eqb_eq); [exact Hnd'|].
    intros r Hr. destruct (Hex r Hr) as (o & Ho & E).
    exists (Order.order_id o, Order.order_purchase_timestamp o). split; [|exact E].
    unfold order_timestamp.
    exact (in_map (fun o => (Order.order_id o, Order.order_purchase_timestamp o))
                  orders o Ho). }
  assert (Ekeyed : filter (keyed order_month_of) (satisfaction_data reviews orders)
                   = satisfaction_data reviews orders).
  { apply forallb_filter_id. apply forallb_forall. intros [r [oid ts]] Hin.
    apply satisfaction_data_In in Hin. destruct Hin as (_ & Ho & _).
    unfold order_timestamp in Ho. apply in_map_iff in Ho.
    destruct Ho as (o & E & Ho). inversion E; subst.
    unfold keyed, order_month_of. simpl.
    destruct (Order.order_purchase_timestamp o) eqn:Et; [reflexivity|].
    exfalso. now apply (Hts o). }
  unfold satisfaction_over_time, satisfaction_by_period.
  rewrite !col_sum_map. simpl.
  rewrite (col_sum_ext _ (fun kg => col_sum (fun _ => 1) (snd kg)))
    by (intros; apply count_as_sum).
  rewrite groupby_sum, Ekeyed, <- count_as_sum.
  unfold count. now rewrite <- (length_map fst), Efst.
Qed.

Lemma satisfaction_counts_all_reviews_witness :
  col_sum review_count
    (satisfaction_over_time
       [{| OrderReview.order_id := 1; OrderReview.review_score := 5 |};
        {| OrderReview.order_id := 2; OrderReview.review_score := 2 |}]
       sample_orders)
  = 2.
Proof.
  apply (satisfaction_counts_all_reviews
           [{| OrderReview.order_id := 1; OrderReview.review_score := 5 |};
            {| OrderReview.order_id := 2; OrderReview.review_score := 2 |}]
           sample_orders).
  - repeat constructor; simpl; intuition discriminate.
  - intros o [<-|[<-|[]]]; discriminate.
  - intros r [<-|[<-|[]]].
    + eexists. split; [left; reflexivity|reflexivity].
    + eexists. split; [right; left; reflexivity|reflexivity].
Defined.
